(** * TensorflowModelServe: a model of the application and its properties

    The development embeds [otb::Wrapper::TensorflowModelServe]
    (app/otbTensorflowModelServe.cxx): the declaration of the parameters
    ([AddAnInputImage], [DoInit]), the preparation of the sources
    ([PrepareInputs]) and the wiring of the processing pipeline
    ([DoExecute]).

    The application object is a record that is threaded through the member
    functions.  Every call that leaves the class (the parameter framework,
    the [tf::] helpers, the filters) is recorded in a chronological trace,
    so that statements about the order and the number of calls can be made.
    Exceptions thrown by the helpers end the member function and are kept
    with the state reached at that point. *)

From Stdlib Require Import ZArith QArith List String Ascii Lia.
From Stdlib Require Import Floats.SpecFloat DecimalString.
From stdpp Require Import base gmap strings pretty list.

Open Scope Z_scope.

(** ** Scalars *)

(** [unsigned int] is 32 bits wide; arithmetic on it wraps around. *)
Definition UINT_WIDTH : Z := 32.
Definition UINT_MODULUS : Z := 2 ^ UINT_WIDTH.
Definition to_uint (z : Z) : Z := z mod UINT_MODULUS.
Definition uint_mul (a b : Z) : Z := to_uint (a * b).

(** Single precision values ([float], the type of a [ParameterType_Float])
    and double precision values, as IEEE 754 binary floating point data. *)
Definition float_of_Z (z : Z) : spec_float :=
  match z with
  | Z0 => S754_zero false
  | Zpos _ => binary_normalize 24 128 z 0 false
  | Zneg _ => binary_normalize 24 128 z 0 true
  end.

Definition double_of_Z (z : Z) : spec_float :=
  match z with
  | Z0 => S754_zero false
  | Zpos _ => binary_normalize 53 1024 z 0 false
  | Zneg _ => binary_normalize 53 1024 z 0 true
  end.

Definition double_div (x y : spec_float) : spec_float := SFdiv 53 1024 x y.

(** The rational number denoted by a finite floating point datum, in
    lowest terms. *)
Definition float_value (f : spec_float) : option Q :=
  match f with
  | S754_zero _ => Some 0%Q
  | S754_finite s m e =>
      let n := if s then Zneg m else Zpos m in
      Some (Qred (match e with
                  | Z0 => inject_Z n
                  | Zpos p => inject_Z (n * 2 ^ Zpos p)
                  | Zneg p => Qmake n (2 ^ p)
                  end))
  | _ => None
  end.

(** Smallest integer that is not below [m * 2^e], for [m > 0]. *)
Definition ceil_scaled (m e : Z) : Z :=
  match e with
  | Z0 => m
  | Zpos p => m * 2 ^ Zpos p
  | Zneg p => (m + 2 ^ Zpos p - 1) / 2 ^ Zpos p
  end.

(** [itk::Math::Ceil<unsigned int>(double)]: the ceiling of the argument,
    converted to [unsigned int].  The conversion is defined for values
    whose ceiling an [unsigned int] can hold; infinities, NaN and values
    out of range have no defined result. *)
Definition Ceil_uint (x : spec_float) : option Z :=
  match x with
  | S754_zero _ => Some 0
  | S754_finite false m e =>
      let c := ceil_scaled (Zpos m) e in
      if c <? UINT_MODULUS then Some c else None
  | S754_finite true m e =>
      (* a negative value above -1 has ceiling 0 *)
      if (e <? 0) && (Zpos m <? 2 ^ (- e)) then Some 0 else None
  | _ => None
  end.

(** ** The parameter framework

    The application declares its parameters in a table indexed by the
    parameter keys.  The table records, for each key, what the declaration
    calls of [DoInit] set: the type, the description, whether the parameter
    is mandatory, the minimum of an integer parameter, the default and the
    current value. *)

Inductive ParameterType :=
| ParameterType_Group
| ParameterType_InputImageList
| ParameterType_Int
| ParameterType_Float
| ParameterType_String
| ParameterType_StringList
| ParameterType_Directory
| ParameterType_Bool
| ParameterType_OutputImage.

(** An input image is identified by its file name. *)
Definition Image := string.

Inductive Value :=
| VEmpty
| VInt (z : Z)
| VFloat (f : spec_float)
| VBool (b : bool)
| VString (s : string)
| VStringList (l : list string)
| VImageList (l : list Image).

Record ParameterDecl := mkParameter {
  p_type : ParameterType;
  p_description : string;
  p_mandatory : bool;
  p_minimum : option Z;
  p_default : option Value;
  p_value : Value
}.

(** ** The objects of the pipeline *)

(** A typed scalar bound to a user placeholder.  A float keeps its
    literal. *)
Inductive Tensor :=
| TBool (b : bool)
| TInt (z : Z)
| TFloat (literal : string).

(** [TFModelFilterType::DictType] and [DictListType]. *)
Definition DictType : Type := string * Tensor.
Definition DictListType : Type := list DictType.

(** [FloatVectorImageType::SizeType]: width and height. *)
Definition SizeType : Type := Z * Z.

(** The graph and the session of a loaded model are opaque handles. *)
Definition GraphDef := N.
Definition Session := N.

Record SavedModelBundle := mkSavedModel {
  graph_def : GraphDef;
  session : Session
}.

(** [otb::TensorflowSource]: turns a list of images into one image by
    stacking their bands. *)
Inductive StackedImage := Stack (il : list Image).

Record InputImageSource := mkSource { source_list : list Image }.
Definition Source_Set (l : list Image) (src : InputImageSource) : InputImageSource :=
  {| source_list := l |}.
Definition Source_Get (src : InputImageSource) : StackedImage :=
  Stack (source_list src).

(** One input of the inference filter, as [PushBackInputBundle] receives
    it. *)
Record InputBundle := mkInput {
  in_placeholder : string;
  in_patchsize : SizeType;
  in_image : StackedImage
}.

(** The state of a [TensorflowMultisourceModelFilter] that its setters
    determine. *)
Record TFModelFilter := mkFilter {
  f_Graph : option GraphDef;
  f_Session : option Session;
  f_OutputTensorsNames : list string;
  f_OutputSpacingScale : spec_float;
  f_UserPlaceholders : DictListType;
  f_Inputs : list InputBundle;
  f_FullyConvolutional : bool;
  f_OutputFOESize : SizeType
}.

(** Modelled from the spec: the constructor of the inference filter, which
    is not part of the application file.  A new filter has no input and no
    user placeholder, and it works patch-wise until
    [SetFullyConvolutional(true)] is called (the execution mode is an
    optional switch of the application). *)
Definition TFModelFilter_New : TFModelFilter :=
  {| f_Graph := None; f_Session := None;
     f_OutputTensorsNames := [];
     f_OutputSpacingScale := float_of_Z 1;
     f_UserPlaceholders := [];
     f_Inputs := [];
     f_FullyConvolutional := false;
     f_OutputFOESize := (1, 1) |}.

Inductive ExecutionMode := PatchWise | FullyConvolutional.

Definition execution_mode (f : TFModelFilter) : ExecutionMode :=
  if f_FullyConvolutional f then FullyConvolutional else PatchWise.

(** [otb::ImageRegionSquareTileSplitter]. *)
Record TileSplitter := mkSplitter { s_TileSizeAlignment : Z }.

(** An image handed from one stage to the next is the output of one of the
    two filters the application owns; it is a reference to that member, not
    a copy of it. *)
Inductive ImageRef :=
| TFFilter_Output
| StreamFilter_Output.

(** [itk::StreamingImageFilter]. *)
Record StreamingFilter := mkStream {
  st_RegionSplitter : option TileSplitter;
  st_NumberOfStreamDivisions : Z;
  st_Input : option ImageRef
}.

Definition StreamingFilter_New : StreamingFilter :=
  {| st_RegionSplitter := None; st_NumberOfStreamDivisions := 0; st_Input := None |}.

(** ** The application *)

(** [ProcessObjectsBundle]: what the application stores for one source. *)
Record ProcessObjectsBundle := mkBundle {
  m_ImageSource : InputImageSource;
  m_PatchSize : SizeType;
  m_Placeholder : string;
  m_KeyIn : string;
  m_KeyPszX : string;
  m_KeyPszY : string;
  m_KeyPHName : string
}.

(** A region of an image: the index of its first pixel and its size. *)
Definition Region : Type := (Z * Z) * SizeType.

(** Calls that leave the class, in the order they are made, and the
    computations of output tiles that the pipeline performs when the output
    is written. *)
Inductive Event :=
| EvGetNumberOfSources
| EvAddParameter (key : string)
| EvGetParameter (key : string)
| EvLoadModel (dir : string)
| EvFilterNew
| EvSetGraph
| EvSetSession
| EvSetOutputTensorsNames
| EvSetOutputSpacingScale
| EvExpressionToTensor (exp : string)
| EvSetUserPlaceholders
| EvPushBackInputBundle (placeholder : string)
| EvSetFullyConvolutional
| EvSetOutputFOESize
| EvUpdateOutputInformation
| EvSplitterNew
| EvStreamingFilterNew
| EvSetParameterOutputImage (key : string)
| EvComputeTile (tile : Region).

Global Instance Event_eq_dec : EqDecision Event.
Proof. solve_decision. Defined.

Record App := mkApp {
  parameters : gmap string ParameterDecl;
  output_images : gmap string ImageRef;
  m_TFFilter : option TFModelFilter;
  m_StreamFilter : option StreamingFilter;
  m_SavedModel : option SavedModelBundle;
  m_Bundles : list ProcessObjectsBundle;
  trace : list Event
}.

Definition App_New : App :=
  {| parameters := ∅; output_images := ∅; m_TFFilter := None;
     m_StreamFilter := None; m_SavedModel := None; m_Bundles := [];
     trace := [] |}.

(** *** State updates *)

Definition log (e : Event) (a : App) : App :=
  mkApp (parameters a) (output_images a) (m_TFFilter a) (m_StreamFilter a)
        (m_SavedModel a) (m_Bundles a) (trace a ++ [e]).

Definition set_parameters (t : gmap string ParameterDecl) (a : App) : App :=
  mkApp t (output_images a) (m_TFFilter a) (m_StreamFilter a)
        (m_SavedModel a) (m_Bundles a) (trace a).

Definition set_output_images (o : gmap string ImageRef) (a : App) : App :=
  mkApp (parameters a) o (m_TFFilter a) (m_StreamFilter a)
        (m_SavedModel a) (m_Bundles a) (trace a).

Definition set_TFFilter (f : option TFModelFilter) (a : App) : App :=
  mkApp (parameters a) (output_images a) f (m_StreamFilter a)
        (m_SavedModel a) (m_Bundles a) (trace a).

Definition set_StreamFilter (s : option StreamingFilter) (a : App) : App :=
  mkApp (parameters a) (output_images a) (m_TFFilter a) s
        (m_SavedModel a) (m_Bundles a) (trace a).

Definition set_SavedModel (b : option SavedModelBundle) (a : App) : App :=
  mkApp (parameters a) (output_images a) (m_TFFilter a) (m_StreamFilter a)
        b (m_Bundles a) (trace a).

Definition set_Bundles (l : list ProcessObjectsBundle) (a : App) : App :=
  mkApp (parameters a) (output_images a) (m_TFFilter a) (m_StreamFilter a)
        (m_SavedModel a) l (trace a).

(** *** Declaring parameters *)

(** A boolean parameter is false until it is set; the other parameters
    start without a value. *)
Definition new_parameter (ty : ParameterType) (desc : string) : ParameterDecl :=
  {| p_type := ty; p_description := desc; p_mandatory := true;
     p_minimum := None; p_default := None;
     p_value := match ty with ParameterType_Bool => VBool false | _ => VEmpty end |}.

Definition AddParameter (ty : ParameterType) (key desc : string) (a : App) : App :=
  log (EvAddParameter key)
      (set_parameters (<[key := new_parameter ty desc]> (parameters a)) a).

Definition with_minimum (v : Z) (p : ParameterDecl) : ParameterDecl :=
  mkParameter (p_type p) (p_description p) (p_mandatory p) (Some v)
              (p_default p) (p_value p).

Definition with_default (v : Value) (p : ParameterDecl) : ParameterDecl :=
  mkParameter (p_type p) (p_description p) (p_mandatory p) (p_minimum p)
              (Some v) v.

Definition with_mandatory (b : bool) (p : ParameterDecl) : ParameterDecl :=
  mkParameter (p_type p) (p_description p) b (p_minimum p)
              (p_default p) (p_value p).

Definition with_value (v : Value) (p : ParameterDecl) : ParameterDecl :=
  mkParameter (p_type p) (p_description p) (p_mandatory p) (p_minimum p)
              (p_default p) v.

Definition SetMinimumParameterIntValue (key : string) (v : Z) (a : App) : App :=
  set_parameters (alter (with_minimum v) key (parameters a)) a.

Definition SetDefaultParameterInt (key : string) (v : Z) (a : App) : App :=
  set_parameters (alter (with_default (VInt v)) key (parameters a)) a.

Definition SetDefaultParameterFloat (key : string) (v : spec_float) (a : App) : App :=
  set_parameters (alter (with_default (VFloat v)) key (parameters a)) a.

Definition MandatoryOn (key : string) (a : App) : App :=
  set_parameters (alter (with_mandatory true) key (parameters a)) a.

Definition MandatoryOff (key : string) (a : App) : App :=
  set_parameters (alter (with_mandatory false) key (parameters a)) a.

(** What the user does between [DoInit] and [DoExecute]: give values to
    declared parameters. *)
Definition SetParameterValue (key : string) (v : Value) (a : App) : App :=
  set_parameters (alter (with_value v) key (parameters a)) a.

Definition configure (settings : list (string * Value)) (a : App) : App :=
  fold_left (fun a kv => SetParameterValue kv.1 kv.2 a) settings a.

(** *** Reading parameters *)

Definition parameter_value (key : string) (t : gmap string ParameterDecl) : Value :=
  match t !! key with
  | Some p => p_value p
  | None => VEmpty
  end.

(** The integer view of a parameter: a boolean reads as 1 or 0. *)
Definition ParameterInt (key : string) (t : gmap string ParameterDecl) : Z :=
  match parameter_value key t with
  | VInt z => z
  | VBool b => if b then 1 else 0
  | _ => 0
  end.

Definition ParameterFloat (key : string) (t : gmap string ParameterDecl) : spec_float :=
  match parameter_value key t with
  | VFloat f => f
  | VInt z => float_of_Z z
  | _ => S754_zero false
  end.

Definition ParameterAsString (key : string) (t : gmap string ParameterDecl) : string :=
  match parameter_value key t with
  | VString s => s
  | VInt z => pretty z
  | VBool b => if b then "true" else "false"
  | _ => ""
  end.

Definition ParameterStringList (key : string) (t : gmap string ParameterDecl) : list string :=
  match parameter_value key t with
  | VStringList l => l
  | _ => []
  end.

Definition ParameterImageList (key : string) (t : gmap string ParameterDecl) : list Image :=
  match parameter_value key t with
  | VImageList l => l
  | _ => []
  end.

(** ** Declaration of the sources: [AddAnInputImage] and [DoInit]

    The new bundle of [AddAnInputImage] is default-initialised: its image
    source is empty and its placeholder is the empty string; its patch size,
    which C++ leaves indeterminate until [PrepareInputs] sets it, is taken to
    be zero.  The calls of [DoInit] that only document the application
    ([SetName], [SetDescription], [SetDocLongDescription], [SetDocAuthors],
    [SetDocExampleParameterValue]) declare nothing and are left out, as are
    the log messages of [PrepareInputs] and [DoExecute]. *)

Definition AddAnInputImage (a : App) : App :=
  (* Number of source *)
  let inputNumber : nat := (length (m_Bundles a) + 1)%nat in
  (* Parameter group key/description *)
  let ss_key_group  := "source" +:+ pretty inputNumber in
  let ss_desc_group := "Parameters for source #" +:+ pretty inputNumber in
  (* Parameter group keys *)
  let ss_key_in     := ss_key_group +:+ ".il" in
  let ss_key_dims_x := ss_key_group +:+ ".fovx" in
  let ss_key_dims_y := ss_key_group +:+ ".fovy" in
  let ss_key_ph     := ss_key_group +:+ ".placeholder" in
  (* Parameter group descriptions *)
  let ss_desc_in     := "Input image (or list to stack) for source #" +:+ pretty inputNumber in
  let ss_desc_dims_x := "Field of view width for source #" +:+ pretty inputNumber in
  let ss_desc_dims_y := "Field of view height for source #" +:+ pretty inputNumber in
  let ss_desc_ph     := "Name of the input placeholder for source #" +:+ pretty inputNumber in
  (* Populate group *)
  let a := AddParameter ParameterType_Group ss_key_group ss_desc_group a in
  let a := AddParameter ParameterType_InputImageList ss_key_in ss_desc_in a in
  let a := AddParameter ParameterType_Int ss_key_dims_x ss_desc_dims_x a in
  let a := SetMinimumParameterIntValue ss_key_dims_x 1 a in
  let a := AddParameter ParameterType_Int ss_key_dims_y ss_desc_dims_y a in
  let a := SetMinimumParameterIntValue ss_key_dims_y 1 a in
  let a := AddParameter ParameterType_String ss_key_ph ss_desc_ph a in
  (* Add a new bundle *)
  let bundle :=
    {| m_ImageSource := {| source_list := [] |};
       m_PatchSize := (0, 0);
       m_Placeholder := "";
       m_KeyIn := ss_key_in;
       m_KeyPszX := ss_key_dims_x;
       m_KeyPszY := ss_key_dims_y;
       m_KeyPHName := ss_key_ph |} in
  set_Bundles (m_Bundles a ++ [bundle]) a.

(** ** Execution: a state and exception monad

    [DoExecute] runs on the application object and ends either normally or
    with an exception of one of the helpers.  The state reached when the
    exception is thrown is kept. *)

Inductive Error :=
| LoadError (dir : string)
| ExpressionError (exp : string)
| OutputInformationError
| ConversionUndefined.

Inductive Outcome (A : Type) :=
| Returned (x : A) (a : App)
| Thrown (e : Error) (a : App).
Arguments Returned {A} x a.
Arguments Thrown {A} e a.

Definition M (A : Type) : Type := App → Outcome A.

Definition ret {A} (x : A) : M A := fun a => Returned x a.

Definition bind {A B} (m : M A) (k : A → M B) : M B :=
  fun a => match m a with
           | Returned x a' => k x a'
           | Thrown e a' => Thrown e a'
           end.

Notation "x <- m ;; k" := (bind m (fun x => k))
  (at level 100, m at next level, right associativity).
Notation "m ;; k" := (bind m (fun _ => k))
  (at level 100, right associativity).

Definition throw {A} (e : Error) : M A := fun a => Thrown e a.
Definition get {A} (f : App → A) : M A := fun a => Returned (f a) a.
Definition modify (f : App → App) : M unit := fun a => Returned tt (f a).
Definition call (e : Event) : M unit := modify (log e).

(** The state an outcome ends in. *)
Definition final {A} (o : Outcome A) : App :=
  match o with Returned _ a => a | Thrown _ a => a end.

Definition returned {A} (o : Outcome A) : bool :=
  match o with Returned _ _ => true | Thrown _ _ => false end.

Fixpoint traverse {A B} (f : A → M B) (l : list A) : M (list B) :=
  match l with
  | [] => ret []
  | x :: l' => y <- f x ;; ys <- traverse f l' ;; ret (y :: ys)
  end.

Fixpoint for_each {A} (f : A → M unit) (l : list A) : M unit :=
  match l with
  | [] => ret tt
  | x :: l' => f x ;; for_each f l'
  end.

(** *** The getters of the framework, as calls *)

Definition GetParameterInt (key : string) : M Z :=
  call (EvGetParameter key) ;; get (fun a => ParameterInt key (parameters a)).
Definition GetParameterFloat (key : string) : M spec_float :=
  call (EvGetParameter key) ;; get (fun a => ParameterFloat key (parameters a)).
Definition GetParameterAsString (key : string) : M string :=
  call (EvGetParameter key) ;; get (fun a => ParameterAsString key (parameters a)).
Definition GetParameterStringList (key : string) : M (list string) :=
  call (EvGetParameter key) ;; get (fun a => ParameterStringList key (parameters a)).
Definition GetParameterImageList (key : string) : M (list Image) :=
  call (EvGetParameter key) ;; get (fun a => ParameterImageList key (parameters a)).

Definition SetParameterOutputImage (key : string) (img : ImageRef) : M unit :=
  call (EvSetParameterOutputImage key) ;;
  modify (fun a => set_output_images (<[key := img]> (output_images a)) a).

(** The helpers of the [tf] namespace and the output information of the
    inference filter are not part of the application file; the application
    is stated over any implementation of them.
    - [tf_GetNumberOfSources] is what [tf::GetNumberOfSources()] returns in
      the environment of the process;
    - [tf_LoadModel] and [tf_ExpressionToTensor] return nothing where the
      helper throws;
    - [tf_OutputSize] is the size of the largest possible region of the
      output of a configured filter, or nothing where
      [UpdateOutputInformation] throws;
    - [split_region] is the list of pieces into which a splitter with a
      given tile size alignment divides a region when a given number of
      divisions is asked for. *)
Class Collaborators := {
  tf_GetNumberOfSources : Z;
  tf_LoadModel : string → option SavedModelBundle;
  tf_ExpressionToTensor : string → option DictType;
  tf_OutputSize : TFModelFilter → option SizeType;
  split_region : TileSplitter → Z → Region → list Region
}.

Section Application.
Context `{!Collaborators}.

(** The loop [for (int i = 1; i < tf::GetNumberOfSources(); i++)
    AddAnInputImage();].  The count is read at every test of the loop
    condition.  [fuel] bounds the number of tests. *)
Fixpoint for_sources (fuel : nat) (i : Z) (a : App) : option App :=
  match fuel with
  | O => None
  | S fuel' =>
      let a := log EvGetNumberOfSources a in
      if i <? tf_GetNumberOfSources
      then for_sources fuel' (i + 1) (AddAnInputImage a)
      else Some a
  end.

(** The same loop by recursion on the number of iterations that remain,
    which is [tf::GetNumberOfSources() - i] when the loop is entered. *)
Fixpoint add_sources (remaining : nat) (a : App) : App :=
  let a := log EvGetNumberOfSources a in
  match remaining with
  | O => a
  | S k => add_sources k (AddAnInputImage a)
  end.

Definition float_one : spec_float := float_of_Z 1.

Definition DoInit (a : App) : App :=
  (* Input/output images *)
  let a := AddAnInputImage a in
  let a := add_sources (Z.to_nat (tf_GetNumberOfSources - 1)) a in
  (* Input model *)
  let a := AddParameter ParameterType_Group "model" "model parameters" a in
  let a := AddParameter ParameterType_Directory "model.dir" "Tensorflow model_save directory" a in
  let a := MandatoryOn "model.dir" a in
  let a := AddParameter ParameterType_StringList "model.userplaceholders"
             "Additional single-valued placeholders. Supported types: int, float, bool." a in
  let a := MandatoryOff "model.userplaceholders" a in
  let a := AddParameter ParameterType_Bool "model.fullyconv" "Fully convolutional" a in
  let a := MandatoryOff "model.fullyconv" a in
  (* Output tensors parameters *)
  let a := AddParameter ParameterType_Group "output" "Output tensors parameters" a in
  let a := AddParameter ParameterType_Float "output.spcscale" "The output spacing scale" a in
  let a := SetDefaultParameterFloat "output.spcscale" float_one a in
  let a := AddParameter ParameterType_StringList "output.names" "Names of the output tensors" a in
  let a := MandatoryOn "output.names" a in
  (* Output Field of Expression *)
  let a := AddParameter ParameterType_Int "output.foex" "The output field of expression (x)" a in
  let a := SetMinimumParameterIntValue "output.foex" 1 a in
  let a := SetDefaultParameterInt "output.foex" 1 a in
  let a := MandatoryOn "output.foex" a in
  let a := AddParameter ParameterType_Int "output.foey" "The output field of expression (y)" a in
  let a := SetMinimumParameterIntValue "output.foey" 1 a in
  let a := SetDefaultParameterInt "output.foey" 1 a in
  let a := MandatoryOn "output.foey" a in
  (* Fine tuning *)
  let a := AddParameter ParameterType_Group "finetuning"
             "Fine tuning performance or consistency parameters" a in
  let a := AddParameter ParameterType_Bool "finetuning.disabletiling" "Disable tiling" a in
  let a := MandatoryOff "finetuning.disabletiling" a in
  let a := AddParameter ParameterType_Int "finetuning.tilesize"
             "Tile width used to stream the filter output" a in
  let a := SetMinimumParameterIntValue "finetuning.tilesize" 1 a in
  let a := SetDefaultParameterInt "finetuning.tilesize" 16 a in
  (* Output image *)
  AddParameter ParameterType_OutputImage "out" "output image" a.

(** *** The helpers, as calls *)

Definition LoadModel (dir : string) : M unit :=
  call (EvLoadModel dir) ;;
  match tf_LoadModel dir with
  | Some bundle => modify (set_SavedModel (Some bundle))
  | None => throw (LoadError dir)
  end.

Definition ExpressionToTensor (exp : string) : M DictType :=
  call (EvExpressionToTensor exp) ;;
  match tf_ExpressionToTensor exp with
  | Some entry => ret entry
  | None => throw (ExpressionError exp)
  end.

(** *** The inference filter, as calls on [m_TFFilter] *)

Definition on_filter (e : Event) (f : TFModelFilter → TFModelFilter) : M unit :=
  call e ;; modify (fun a => set_TFFilter (option_map f (m_TFFilter a)) a).

Definition SetGraph (g : option GraphDef) : M unit :=
  on_filter EvSetGraph (fun f =>
    mkFilter g (f_Session f) (f_OutputTensorsNames f) (f_OutputSpacingScale f)
             (f_UserPlaceholders f) (f_Inputs f) (f_FullyConvolutional f) (f_OutputFOESize f)).

Definition SetSession (s : option Session) : M unit :=
  on_filter EvSetSession (fun f =>
    mkFilter (f_Graph f) s (f_OutputTensorsNames f) (f_OutputSpacingScale f)
             (f_UserPlaceholders f) (f_Inputs f) (f_FullyConvolutional f) (f_OutputFOESize f)).

Definition SetOutputTensorsNames (names : list string) : M unit :=
  on_filter EvSetOutputTensorsNames (fun f =>
    mkFilter (f_Graph f) (f_Session f) names (f_OutputSpacingScale f)
             (f_UserPlaceholders f) (f_Inputs f) (f_FullyConvolutional f) (f_OutputFOESize f)).

Definition SetOutputSpacingScale (scale : spec_float) : M unit :=
  on_filter EvSetOutputSpacingScale (fun f =>
    mkFilter (f_Graph f) (f_Session f) (f_OutputTensorsNames f) scale
             (f_UserPlaceholders f) (f_Inputs f) (f_FullyConvolutional f) (f_OutputFOESize f)).

Definition SetUserPlaceholders (dict : DictListType) : M unit :=
  on_filter EvSetUserPlaceholders (fun f =>
    mkFilter (f_Graph f) (f_Session f) (f_OutputTensorsNames f) (f_OutputSpacingScale f)
             dict (f_Inputs f) (f_FullyConvolutional f) (f_OutputFOESize f)).

Definition PushBackInputBundle (placeholder : string) (patchSize : SizeType)
    (image : StackedImage) : M unit :=
  on_filter (EvPushBackInputBundle placeholder) (fun f =>
    mkFilter (f_Graph f) (f_Session f) (f_OutputTensorsNames f) (f_OutputSpacingScale f)
             (f_UserPlaceholders f)
             (f_Inputs f ++ [mkInput placeholder patchSize image])
             (f_FullyConvolutional f) (f_OutputFOESize f)).

Definition SetFullyConvolutional (b : bool) : M unit :=
  on_filter EvSetFullyConvolutional (fun f =>
    mkFilter (f_Graph f) (f_Session f) (f_OutputTensorsNames f) (f_OutputSpacingScale f)
             (f_UserPlaceholders f) (f_Inputs f) b (f_OutputFOESize f)).

Definition SetOutputFOESize (foe : SizeType) : M unit :=
  on_filter EvSetOutputFOESize (fun f =>
    mkFilter (f_Graph f) (f_Session f) (f_OutputTensorsNames f) (f_OutputSpacingScale f)
             (f_UserPlaceholders f) (f_Inputs f) (f_FullyConvolutional f) foe).

(** *** The streaming filter, as updates of [m_StreamFilter] *)

Definition on_stream (f : StreamingFilter → StreamingFilter) : M unit :=
  modify (fun a => set_StreamFilter (option_map f (m_StreamFilter a)) a).

Definition SetRegionSplitter (splitter : TileSplitter) (s : StreamingFilter) : StreamingFilter :=
  mkStream (Some splitter) (st_NumberOfStreamDivisions s) (st_Input s).

Definition SetNumberOfStreamDivisions (n : Z) (s : StreamingFilter) : StreamingFilter :=
  mkStream (st_RegionSplitter s) n (st_Input s).

Definition SetInput (img : ImageRef) (s : StreamingFilter) : StreamingFilter :=
  mkStream (st_RegionSplitter s) (st_NumberOfStreamDivisions s) (Some img).

(** [m_TFFilter->UpdateOutputInformation()] followed by the size of the
    largest possible region of the output. *)
Definition UpdateOutputInformation : M SizeType :=
  call EvUpdateOutputInformation ;;
  f <- get m_TFFilter ;;
  match option_bind _ _ tf_OutputSize f with
  | Some size => ret size
  | None => throw OutputInformationError
  end.

(** [SizeValueType] is an unsigned 64 bit integer. *)
Definition to_SizeValue (z : Z) : Z := z mod 2 ^ 64.

Definition GetNumberOfPixels (size : SizeType) : Z :=
  to_SizeValue (size.1 * size.2).

(** ** [PrepareInputs] *)

Definition prepare_bundle (bundle : ProcessObjectsBundle) : M ProcessObjectsBundle :=
  (* Setting the image source *)
  list <- GetParameterImageList (m_KeyIn bundle) ;;
  placeholder <- GetParameterAsString (m_KeyPHName bundle) ;;
  x <- GetParameterInt (m_KeyPszX bundle) ;;
  y <- GetParameterInt (m_KeyPszY bundle) ;;
  ret {| m_ImageSource := Source_Set list (m_ImageSource bundle);
         m_PatchSize := (to_SizeValue x, to_SizeValue y);
         m_Placeholder := placeholder;
         m_KeyIn := m_KeyIn bundle;
         m_KeyPszX := m_KeyPszX bundle;
         m_KeyPszY := m_KeyPszY bundle;
         m_KeyPHName := m_KeyPHName bundle |}.

Definition PrepareInputs : M unit :=
  bundles <- get m_Bundles ;;
  bundles' <- traverse prepare_bundle bundles ;;
  modify (set_Bundles bundles').

(** ** [DoExecute] *)

(** The user placeholders: every expression is turned into a dictionary
    entry, in the order of the list. *)
Fixpoint parse_expressions (expressions : list string) (dict : DictListType)
    : M DictListType :=
  match expressions with
  | [] => ret dict
  | exp :: rest =>
      entry <- ExpressionToTensor exp ;;
      parse_expressions rest (dict ++ [entry])
  end.

(** [itk::Math::Ceil<unsigned int>(double(numberOfPixels) / (tileSize * tileSize))],
    the product being one of [unsigned int]. *)
Definition nbDesiredTiles (numberOfPixels tileSize : Z) : option Z :=
  Ceil_uint (double_div (double_of_Z numberOfPixels)
                        (double_of_Z (uint_mul tileSize tileSize))).

Definition push_bundle (bundle : ProcessObjectsBundle) : M unit :=
  PushBackInputBundle (m_Placeholder bundle) (m_PatchSize bundle)
                      (Source_Get (m_ImageSource bundle)).

Definition DoExecute : M unit :=
  (* Load the Tensorflow bundle *)
  dir <- GetParameterAsString "model.dir" ;;
  LoadModel dir ;;
  (* Prepare inputs *)
  PrepareInputs ;;
  (* Setup filter *)
  call EvFilterNew ;;
  modify (set_TFFilter (Some TFModelFilter_New)) ;;
  model <- get m_SavedModel ;;
  SetGraph (option_map graph_def model) ;;
  SetSession (option_map session model) ;;
  names <- GetParameterStringList "output.names" ;;
  SetOutputTensorsNames names ;;
  scale <- GetParameterFloat "output.spcscale" ;;
  SetOutputSpacingScale scale ;;
  (* Get user placeholders *)
  expressions <- GetParameterStringList "model.userplaceholders" ;;
  dict <- parse_expressions expressions [] ;;
  SetUserPlaceholders dict ;;
  (* Input sources *)
  bundles <- get m_Bundles ;;
  for_each push_bundle bundles ;;
  (* Fully convolutional mode on/off *)
  fullyconv <- GetParameterInt "model.fullyconv" ;;
  (if fullyconv =? 1 then SetFullyConvolutional true else ret tt) ;;
  (* Output field of expression *)
  foex <- GetParameterInt "output.foex" ;;
  foey <- GetParameterInt "output.foey" ;;
  SetOutputFOESize (to_SizeValue foex, to_SizeValue foey) ;;
  (* Streaming *)
  disabletiling <- GetParameterInt "finetuning.disabletiling" ;;
  if negb (disabletiling =? 1) then
    (* Get the tile size *)
    tilesize <- GetParameterInt "finetuning.tilesize" ;;
    let tileSize := to_uint tilesize in
    (* Update the TF filter to get the output image size *)
    size <- UpdateOutputInformation ;;
    (* Splitting using square tiles *)
    call EvSplitterNew ;;
    let splitter := {| s_TileSizeAlignment := tileSize |} in
    match nbDesiredTiles (GetNumberOfPixels size) tileSize with
    | None => throw ConversionUndefined
    | Some nb =>
        (* Use an itk::StreamingImageFilter to force the computation on tiles *)
        call EvStreamingFilterNew ;;
        modify (set_StreamFilter (Some StreamingFilter_New)) ;;
        on_stream (SetRegionSplitter splitter) ;;
        on_stream (SetNumberOfStreamDivisions nb) ;;
        on_stream (SetInput TFFilter_Output) ;;
        SetParameterOutputImage "out" StreamFilter_Output
    end
  else
    SetParameterOutputImage "out" TFFilter_Output.

(** ** Writing the output

    The application only wires the pipeline; the output is computed when
    the sink pulls the image registered under ["out"].  The pipeline stages
    that do this are not part of the application file. *)

(** Modelled from the spec: the streaming driver (section 4.4), which is
    not part of the application file.  The sink asks the image registered
    under ["out"] for the whole output region.  When that image is the
    output of the inference filter, the region reaches the filter as it is
    (a single call over the full output region); when it is the output of
    the streaming filter, the filter is asked, one after the other, for the
    pieces the region splitter makes of the region. *)
Definition requested_regions (a : App) (whole : Region) : list Region :=
  match output_images a !! "out" with
  | Some TFFilter_Output => [whole]
  | Some StreamFilter_Output =>
      match m_StreamFilter a with
      | Some s =>
          match st_RegionSplitter s, st_Input s with
          | Some splitter, Some TFFilter_Output =>
              split_region splitter (st_NumberOfStreamDivisions s) whole
          | _, _ => []
          end
      | None => []
      end
  | None => []
  end.

(** What the computation of one tile by the inference filter is made of:
    the tile, the constants bound to the user placeholders, the names of the
    requested output tensors and the execution mode. *)
Record TileComputation := mkTile {
  tile_region : Region;
  tile_constants : DictListType;
  tile_output_names : list string;
  tile_mode : ExecutionMode
}.

(** Modelled from the spec: the computation of a tile by the inference
    filter (section 4.2, steps 3 and 4), which is not part of the
    application file.  Each user placeholder of the filter is bound as a
    constant, identical on every call; the output tensors of the filter are
    requested in their order; the computation runs in the mode of the
    filter. *)
Definition computeTile (f : TFModelFilter) (tile : Region) : TileComputation :=
  {| tile_region := tile;
     tile_constants := f_UserPlaceholders f;
     tile_output_names := f_OutputTensorsNames f;
     tile_mode := execution_mode f |}.

(** Modelled from the spec: the tiles the streaming driver (section 4.4)
    makes the inference filter compute for the whole output region, which
    starts at the origin and has the size of the output of the filter. *)
Definition tile_computations (a : App) : list TileComputation :=
  match m_TFFilter a with
  | Some f =>
      match tf_OutputSize f with
      | Some size => computeTile f <$> requested_regions a ((0, 0), size)
      | None => []
      end
  | None => []
  end.

(** Modelled from the spec: the streaming driver (section 4.4) at work,
    which is not part of the application file.  The tiles are computed one
    after the other; the failure to obtain the output information ends the
    run. *)
Definition WriteOutput : M unit :=
  f <- get m_TFFilter ;;
  match option_bind _ _ tf_OutputSize f with
  | Some size =>
      tiles <- get (fun a => requested_regions a ((0, 0), size)) ;;
      for_each (fun tile => call (EvComputeTile tile)) tiles
  | None => throw OutputInformationError
  end.

(** One run of the application once the parameters have their values:
    [DoExecute], then the writing of the output. *)
Definition ExecuteAndWriteOutput : M unit :=
  DoExecute ;; WriteOutput.

End Application.

(** Modelled from the spec: the stacking step of the inference filter
    (section 4.2, step 5), which is not part of the application file.  For
    each name of the output tensors, in order, the channels of the tensor
    of that name are appended to the bands of the output.  A band is
    identified by the name of its tensor and the index of the channel in
    that tensor; [channels] gives the channel count of a tensor. *)
Definition tensor_bands (channels : string → nat) (name : string) : list (string * nat) :=
  (fun c => (name, c)) <$> seq 0 (channels name).

(** Modelled from the spec: the bands of the output of the inference
    filter (section 4.2, contract and step 5), which is not part of the
    application file: the bands of the tensors named by the filter,
    concatenated in the order of the names. *)
Definition output_bands (channels : string → nat) (f : TFModelFilter) : list (string * nat) :=
  f_OutputTensorsNames f ≫= tensor_bands channels.

(** Number of bands that precede the bands of the [i]-th name. *)
Definition band_offset (channels : string → nat) (names : list string) (i : nat) : nat :=
  sum_list (channels <$> take i names).

(** Modelled from the spec: the split of an expression [name=value] of
    the placeholder coercion (section 4.5), which is not part of the
    application file, at its first equal sign. *)
Fixpoint split_at_equal (s : string) : option (string * string) :=
  match s with
  | EmptyString => None
  | String c rest =>
      if Ascii.eqb c "=" then Some (EmptyString, rest)
      else match split_at_equal rest with
           | Some (name, value) => Some (String c name, value)
           | None => None
           end
  end.

Definition is_float_marker (c : ascii) : bool :=
  Ascii.eqb c "." || Ascii.eqb c "e" || Ascii.eqb c "E".

Fixpoint contains (p : ascii → bool) (s : string) : bool :=
  match s with
  | EmptyString => false
  | String c rest => p c || contains p rest
  end.

(** Modelled from the spec: the placeholder coercion (section 4.5), which
    is not part of the application file.  An expression is [name=value];
    the value [true] or [false] is a boolean, a value with a [.] or an
    exponent marker is a float, any other value is an integer.  Anything
    else is malformed.  It is the parser of the examples; the properties
    of the application hold for any parser. *)
Definition parse_placeholder (expression : string) : option DictType :=
  match split_at_equal expression with
  | Some (name, value) =>
      if String.eqb name "" || String.eqb value "" then None
      else if String.eqb value "true" then Some (name, TBool true)
      else if String.eqb value "false" then Some (name, TBool false)
      else if contains is_float_marker value then Some (name, TFloat value)
      else match NilZero.int_of_string value with
           | Some i => Some (name, TInt (Z.of_int i))
           | None => None
           end
  | None => None
  end.

(** ** Vocabulary of the statements *)

(** The exact quotient rounded up, for a positive divisor. *)
Definition ceil_div (n d : Z) : Z := (n + d - 1) / d.


(** The events of a trace that are of a given kind, and their number. *)
Definition select (kind : Event → bool) (l : list Event) : list Event :=
  List.filter kind l.

Definition count (kind : Event → bool) (l : list Event) : nat :=
  length (select kind l).

Definition is_ComputeTile (e : Event) : bool :=
  match e with EvComputeTile _ => true | _ => false end.

Definition is_ExpressionToTensor (e : Event) : bool :=
  match e with EvExpressionToTensor _ => true | _ => false end.

Definition is_AddParameter (e : Event) : bool :=
  match e with EvAddParameter _ => true | _ => false end.

Definition is_GetNumberOfSources (e : Event) : bool :=
  match e with EvGetNumberOfSources => true | _ => false end.

Definition is_SetUserPlaceholders (e : Event) : bool :=
  match e with EvSetUserPlaceholders => true | _ => false end.

Definition is_SetFullyConvolutional (e : Event) : bool :=
  match e with EvSetFullyConvolutional => true | _ => false end.

Definition is_PushBackInputBundle (e : Event) : bool :=
  match e with EvPushBackInputBundle _ => true | _ => false end.

Definition is_SplitterNew (e : Event) : bool :=
  match e with EvSplitterNew => true | _ => false end.

Definition is_StreamingFilterNew (e : Event) : bool :=
  match e with EvStreamingFilterNew => true | _ => false end.

(** The reads of the parameter [key]. *)
Definition is_read_of (key : string) (e : Event) : bool :=
  match e with EvGetParameter k => String.eqb k key | _ => false end.

(** The calls [DoExecute] can make. *)
Definition is_execute_call (e : Event) : bool :=
  match e with
  | EvGetNumberOfSources | EvAddParameter _ | EvComputeTile _ => false
  | _ => true
  end.

(** No event of the kind [late] is followed by an event of the kind
    [early]. *)
Fixpoint all_before (early late : Event → bool) (l : list Event) : bool :=
  match l with
  | [] => true
  | e :: l' =>
      (if late e then forallb (fun e' => negb (early e')) l' else true)
      && all_before early late l'
  end.

(** The keys of the parameter group of the source number [i]. *)
Definition group_key (i : nat) : string := "source" +:+ pretty i.
Definition source_key (i : nat) (suffix : string) : string :=
  group_key i +:+ suffix.

(** The bundle that [AddAnInputImage] stores for the source number [i]. *)
Definition declared_bundle (i : nat) : ProcessObjectsBundle :=
  {| m_ImageSource := {| source_list := [] |};
     m_PatchSize := (0, 0);
     m_Placeholder := "";
     m_KeyIn := source_key i ".il";
     m_KeyPszX := source_key i ".fovx";
     m_KeyPszY := source_key i ".fovy";
     m_KeyPHName := source_key i ".placeholder" |}.

(** The calls [AddAnInputImage] makes for the source number [i]. *)
Definition declared_events (i : nat) : list Event :=
  [EvAddParameter (group_key i); EvAddParameter (source_key i ".il");
   EvAddParameter (source_key i ".fovx"); EvAddParameter (source_key i ".fovy");
   EvAddParameter (source_key i ".placeholder")].

(** The number of sources the application ends up with. *)
Definition number_of_sources `{!Collaborators} : nat :=
  S (Z.to_nat (tf_GetNumberOfSources - 1)).

(** *** What [DoExecute] computes and calls

    The values below are those [DoExecute] reads from the parameter table
    [t] for the bundles [bundles]; the properties of [DoExecute] are stated
    with them. *)

Definition logs (es : list Event) (a : App) : App :=
  mkApp (parameters a) (output_images a) (m_TFFilter a) (m_StreamFilter a)
        (m_SavedModel a) (m_Bundles a) (trace a ++ es).

Definition prepared_bundle (t : gmap string ParameterDecl) (bundle : ProcessObjectsBundle)
    : ProcessObjectsBundle :=
  {| m_ImageSource := Source_Set (ParameterImageList (m_KeyIn bundle) t) (m_ImageSource bundle);
     m_PatchSize := (to_SizeValue (ParameterInt (m_KeyPszX bundle) t),
                     to_SizeValue (ParameterInt (m_KeyPszY bundle) t));
     m_Placeholder := ParameterAsString (m_KeyPHName bundle) t;
     m_KeyIn := m_KeyIn bundle;
     m_KeyPszX := m_KeyPszX bundle;
     m_KeyPszY := m_KeyPszY bundle;
     m_KeyPHName := m_KeyPHName bundle |}.

Definition prepare_events (bundle : ProcessObjectsBundle) : list Event :=
  [EvGetParameter (m_KeyIn bundle); EvGetParameter (m_KeyPHName bundle);
   EvGetParameter (m_KeyPszX bundle); EvGetParameter (m_KeyPszY bundle)].

Definition bundle_input (bundle : ProcessObjectsBundle) : InputBundle :=
  mkInput (m_Placeholder bundle) (m_PatchSize bundle) (Source_Get (m_ImageSource bundle)).

Definition with_inputs (inputs : list InputBundle) (f : TFModelFilter) : TFModelFilter :=
  mkFilter (f_Graph f) (f_Session f) (f_OutputTensorsNames f) (f_OutputSpacingScale f)
           (f_UserPlaceholders f) inputs (f_FullyConvolutional f) (f_OutputFOESize f).

Definition push_event (bundle : ProcessObjectsBundle) : Event :=
  EvPushBackInputBundle (m_Placeholder bundle).

(** The dictionary of a list of expressions, when all of them are well
    formed. *)
Fixpoint parse_all `{!Collaborators} (expressions : list string) : option DictListType :=
  match expressions with
  | [] => Some []
  | exp :: rest =>
      match tf_ExpressionToTensor exp with
      | Some entry => cons entry <$> parse_all rest
      | None => None
      end
  end.

Definition configured_filter (t : gmap string ParameterDecl)
    (bundles : list ProcessObjectsBundle) (model : SavedModelBundle)
    (dict : DictListType) : TFModelFilter :=
  {| f_Graph := Some (graph_def model);
     f_Session := Some (session model);
     f_OutputTensorsNames := ParameterStringList "output.names" t;
     f_OutputSpacingScale := ParameterFloat "output.spcscale" t;
     f_UserPlaceholders := dict;
     f_Inputs := bundle_input <$> (prepared_bundle t <$> bundles);
     f_FullyConvolutional := ParameterInt "model.fullyconv" t =? 1;
     f_OutputFOESize := (to_SizeValue (ParameterInt "output.foex" t),
                         to_SizeValue (ParameterInt "output.foey" t)) |}.

Definition load_events (t : gmap string ParameterDecl) : list Event :=
  [EvGetParameter "model.dir"; EvLoadModel (ParameterAsString "model.dir" t)].

Definition setup_events (bundles : list ProcessObjectsBundle) : list Event :=
  (bundles ≫= prepare_events)
  ++ [EvFilterNew; EvSetGraph; EvSetSession;
      EvGetParameter "output.names"; EvSetOutputTensorsNames;
      EvGetParameter "output.spcscale"; EvSetOutputSpacingScale;
      EvGetParameter "model.userplaceholders"].

Definition parse_events (expressions : list string) : list Event :=
  EvExpressionToTensor <$> expressions.

Definition wiring_events (t : gmap string ParameterDecl)
    (bundles : list ProcessObjectsBundle) : list Event :=
  EvSetUserPlaceholders
  :: (push_event <$> (prepared_bundle t <$> bundles))
  ++ EvGetParameter "model.fullyconv"
  :: (if ParameterInt "model.fullyconv" t =? 1 then [EvSetFullyConvolutional] else [])
  ++ [EvGetParameter "output.foex"; EvGetParameter "output.foey"; EvSetOutputFOESize;
      EvGetParameter "finetuning.disabletiling"].

Definition untiled_events : list Event :=
  [EvSetParameterOutputImage "out"].

Definition tiled_events : list Event :=
  [EvGetParameter "finetuning.tilesize"; EvUpdateOutputInformation;
   EvSplitterNew; EvStreamingFilterNew; EvSetParameterOutputImage "out"].

(** The calls of a [DoExecute] that returns, [tail] being the calls of the
    branch taken for the streaming. *)
Definition execute_events (t : gmap string ParameterDecl)
    (bundles : list ProcessObjectsBundle) (tail : list Event) : list Event :=
  load_events t ++ setup_events bundles
  ++ parse_events (ParameterStringList "model.userplaceholders" t)
  ++ wiring_events t bundles ++ tail.

(** The application after a [DoExecute] that returns. *)
Definition executed (a : App) (model : SavedModelBundle) (dict : DictListType)
    (stream : option StreamingFilter) (out : ImageRef) (tail : list Event) : App :=
  {| parameters := parameters a;
     output_images := <["out" := out]> (output_images a);
     m_TFFilter := Some (configured_filter (parameters a) (m_Bundles a) model dict);
     m_StreamFilter := stream;
     m_SavedModel := Some model;
     m_Bundles := prepared_bundle (parameters a) <$> m_Bundles a;
     trace := trace a ++ execute_events (parameters a) (m_Bundles a) tail |}.

(** The application when an exception leaves [DoExecute] after the model
    has been loaded and the filter created: no output image has been
    registered and the streaming filter has not been replaced. *)
Definition interrupted (a : App) (model : SavedModelBundle) (f : TFModelFilter)
    (events : list Event) : App :=
  {| parameters := parameters a;
     output_images := output_images a;
     m_TFFilter := Some f;
     m_StreamFilter := m_StreamFilter a;
     m_SavedModel := Some model;
     m_Bundles := prepared_bundle (parameters a) <$> m_Bundles a;
     trace := trace a ++ events |}.

(** The streaming filter [DoExecute] builds for a tile size and a number of
    divisions. *)
Definition tiling_filter (tileSize nb : Z) : StreamingFilter :=
  {| st_RegionSplitter := Some {| s_TileSizeAlignment := tileSize |};
     st_NumberOfStreamDivisions := nb;
     st_Input := Some TFFilter_Output |}.

(** The two ways [DoExecute] ends the pipeline: the streaming filter it
    leaves in [m_StreamFilter], the image it registers under ["out"] and the
    calls it makes to get there. *)
Inductive streaming_choice `{!Collaborators} (a : App) (model : SavedModelBundle)
    (dict : DictListType) : option StreamingFilter → ImageRef → list Event → Prop :=
| choice_untiled :
    ParameterInt "finetuning.disabletiling" (parameters a) = 1 →
    streaming_choice a model dict (m_StreamFilter a) TFFilter_Output untiled_events
| choice_tiled (size : SizeType) (nb : Z) :
    let tileSize := to_uint (ParameterInt "finetuning.tilesize" (parameters a)) in
    ParameterInt "finetuning.disabletiling" (parameters a) ≠ 1 →
    tf_OutputSize (configured_filter (parameters a) (m_Bundles a) model dict) = Some size →
    nbDesiredTiles (GetNumberOfPixels size) tileSize = Some nb →
    streaming_choice a model dict (Some (tiling_filter tileSize nb))
                     StreamFilter_Output tiled_events.

(** The declarations [AddAnInputImage] makes for the source number [i]. *)
Definition fov_parameter (desc : string) (i : nat) : ParameterDecl :=
  with_minimum 1 (new_parameter ParameterType_Int (desc +:+ pretty i)).

Definition declared_parameters (i : nat) (t : gmap string ParameterDecl)
    : gmap string ParameterDecl :=
  <[source_key i ".placeholder" :=
      new_parameter ParameterType_String
        ("Name of the input placeholder for source #" +:+ pretty i)]>
  (alter (with_minimum 1) (source_key i ".fovy")
  (<[source_key i ".fovy" :=
      new_parameter ParameterType_Int ("Field of view height for source #" +:+ pretty i)]>
  (alter (with_minimum 1) (source_key i ".fovx")
  (<[source_key i ".fovx" :=
      new_parameter ParameterType_Int ("Field of view width for source #" +:+ pretty i)]>
  (<[source_key i ".il" :=
      new_parameter ParameterType_InputImageList
        ("Input image (or list to stack) for source #" +:+ pretty i)]>
  (<[group_key i :=
      new_parameter ParameterType_Group ("Parameters for source #" +:+ pretty i)]> t)))))).

(** The table and the calls after the sources [first], ..., [first + k - 1]
    have been declared by the loop of [DoInit]. *)
Definition sources_table (first k : nat) (t : gmap string ParameterDecl)
    : gmap string ParameterDecl :=
  foldl (fun t i => declared_parameters i t) t (seq first k).

Definition loop_events (first k : nat) : list Event :=
  (seq first k ≫= fun i => EvGetNumberOfSources :: declared_events i)
  ++ [EvGetNumberOfSources].

(** The input the filter receives for the source number [i]. *)
Definition source_input (t : gmap string ParameterDecl) (i : nat) : InputBundle :=
  {| in_placeholder := ParameterAsString (source_key i ".placeholder") t;
     in_patchsize := (to_SizeValue (ParameterInt (source_key i ".fovx") t),
                      to_SizeValue (ParameterInt (source_key i ".fovy") t));
     in_image := Stack (ParameterImageList (source_key i ".il") t) |}.

(** The calls of [DoInit] after the sources have been declared. *)
Definition static_events : list Event :=
  EvAddParameter <$>
    ["model"; "model.dir"; "model.userplaceholders"; "model.fullyconv";
     "output"; "output.spcscale"; "output.names"; "output.foex"; "output.foey";
     "finetuning"; "finetuning.disabletiling"; "finetuning.tilesize"; "out"].

(** The application as [DoExecute] finds it: declared by [DoInit], then
    given values by the user. *)
Definition configured `{!Collaborators} (settings : list (string * Value)) : App :=
  configure settings (DoInit App_New).

(** *** The keys of the parameters

    The keys of the calls of [AddParameter] of a trace, in the order of the
    calls. *)
Definition added_keys (l : list Event) : list string :=
  l ≫= fun e => match e with EvAddParameter key => [key] | _ => [] end.

(** The keys [AddAnInputImage] declares for the source number [i]. *)
Definition source_keys (i : nat) : list string :=
  [group_key i; source_key i ".il"; source_key i ".fovx"; source_key i ".fovy";
   source_key i ".placeholder"].

(** The keys [DoInit] declares after those of the sources. *)
Definition static_keys : list string :=
  ["model"; "model.dir"; "model.userplaceholders"; "model.fullyconv";
   "output"; "output.spcscale"; "output.names"; "output.foex"; "output.foey";
   "finetuning"; "finetuning.disabletiling"; "finetuning.tilesize"; "out"].

Definition declared_keys `{!Collaborators} : list string :=
  (seq 1 number_of_sources ≫= source_keys) ++ static_keys.

(** The keys on which [DoInit] calls [MandatoryOff]. *)
Definition optional_keys : list string :=
  ["model.userplaceholders"; "model.fullyconv"; "finetuning.disabletiling"].

(** The keys of the example of the documentation: those of the calls of
    [SetDocExampleParameterValue] of [DoInit], in their order. *)
Definition DocExampleParameterKeys : list string :=
  ["source1.il"; "source1.placeholder"; "source1.fovx"; "source1.fovy";
   "model.dir"; "model.userplaceholders"; "output.names"; "out"].

(** The parameters [DoExecute] reads by a literal key. *)
Definition execute_keys : list string :=
  ["model.dir"; "output.names"; "output.spcscale"; "model.userplaceholders";
   "model.fullyconv"; "output.foex"; "output.foey"; "finetuning.disabletiling";
   "finetuning.tilesize"].

(** The keys [PrepareInputs] reads for a bundle, in the order of the
    reads. *)
Definition bundle_keys (bundle : ProcessObjectsBundle) : list string :=
  [m_KeyIn bundle; m_KeyPHName bundle; m_KeyPszX bundle; m_KeyPszY bundle].

(** The inference filter as [DoExecute] has set it up when it starts to
    parse the user placeholders: a new filter with the graph and the session
    of the loaded model, the names of the output tensors and the output
    spacing scale. *)
Definition loaded_filter (t : gmap string ParameterDecl) (model : SavedModelBundle)
    : TFModelFilter :=
  {| f_Graph := Some (graph_def model);
     f_Session := Some (session model);
     f_OutputTensorsNames := ParameterStringList "output.names" t;
     f_OutputSpacingScale := ParameterFloat "output.spcscale" t;
     f_UserPlaceholders := f_UserPlaceholders TFModelFilter_New;
     f_Inputs := f_Inputs TFModelFilter_New;
     f_FullyConvolutional := f_FullyConvolutional TFModelFilter_New;
     f_OutputFOESize := f_OutputFOESize TFModelFilter_New |}.

(** *** The ways [DoExecute] ends

    [DoExecute] ends with the exception of the loading of the model, with
    the exception of the first malformed expression, with the exception of
    the output information, where the number of stream divisions has no
    defined conversion, or it returns. *)
Inductive execution_outcome `{!Collaborators} (a : App) : Outcome unit → Prop :=
| outcome_load_fails :
    tf_LoadModel (ParameterAsString "model.dir" (parameters a)) = None →
    execution_outcome a
      (Thrown (LoadError (ParameterAsString "model.dir" (parameters a)))
              (logs (load_events (parameters a)) a))
| outcome_parse_fails (model : SavedModelBundle) (done : list string) (e : string)
    (rest : list string) :
    tf_LoadModel (ParameterAsString "model.dir" (parameters a)) = Some model →
    ParameterStringList "model.userplaceholders" (parameters a) = done ++ e :: rest →
    is_Some (parse_all done) →
    tf_ExpressionToTensor e = None →
    execution_outcome a
      (Thrown (ExpressionError e)
         (interrupted a model (loaded_filter (parameters a) model)
            (load_events (parameters a) ++ setup_events (m_Bundles a)
             ++ parse_events (done ++ [e]))))
| outcome_output_information_fails (model : SavedModelBundle) (dict : DictListType) :
    tf_LoadModel (ParameterAsString "model.dir" (parameters a)) = Some model →
    parse_all (ParameterStringList "model.userplaceholders" (parameters a)) = Some dict →
    ParameterInt "finetuning.disabletiling" (parameters a) ≠ 1 →
    tf_OutputSize (configured_filter (parameters a) (m_Bundles a) model dict) = None →
    execution_outcome a
      (Thrown OutputInformationError
         (interrupted a model (configured_filter (parameters a) (m_Bundles a) model dict)
            (execute_events (parameters a) (m_Bundles a)
               [EvGetParameter "finetuning.tilesize"; EvUpdateOutputInformation])))
| outcome_conversion_undefined (model : SavedModelBundle) (dict : DictListType)
    (size : SizeType) :
    tf_LoadModel (ParameterAsString "model.dir" (parameters a)) = Some model →
    parse_all (ParameterStringList "model.userplaceholders" (parameters a)) = Some dict →
    ParameterInt "finetuning.disabletiling" (parameters a) ≠ 1 →
    tf_OutputSize (configured_filter (parameters a) (m_Bundles a) model dict) = Some size →
    nbDesiredTiles (GetNumberOfPixels size)
                   (to_uint (ParameterInt "finetuning.tilesize" (parameters a))) = None →
    execution_outcome a
      (Thrown ConversionUndefined
         (interrupted a model (configured_filter (parameters a) (m_Bundles a) model dict)
            (execute_events (parameters a) (m_Bundles a)
               [EvGetParameter "finetuning.tilesize"; EvUpdateOutputInformation;
                EvSplitterNew])))
| outcome_returns (model : SavedModelBundle) (dict : DictListType)
    (stream : option StreamingFilter) (out : ImageRef) (tail : list Event) :
    tf_LoadModel (ParameterAsString "model.dir" (parameters a)) = Some model →
    parse_all (ParameterStringList "model.userplaceholders" (parameters a)) = Some dict →
    streaming_choice a model dict stream out tail →
    execution_outcome a (Returned tt (executed a model dict stream out tail)).

(** Decimal digits, and the part of a string that follows its leading
    digits. *)
Definition is_digit (c : ascii) : bool :=
  match Ascii.is_nat c with Some _ => true | None => false end.

Fixpoint all_digits (s : string) : bool :=
  match s with
  | EmptyString => true
  | String c rest => is_digit c && all_digits rest
  end.

Fixpoint strip_digits (s : string) : string :=
  match s with
  | EmptyString => EmptyString
  | String c rest => if is_digit c then strip_digits rest else s
  end.

(** The suffixes of the keys of a source group start with a dot. *)
Definition starts_with_dot (s : string) : bool :=
  match s with
  | String c _ => Ascii.eqb c "."
  | EmptyString => false
  end.

(** ** Examples

    The example of the documentation of the application: one source read
    from [spot6pms.tif] with a field of view of 16 by 16 and the placeholder
    [x1], the model of [/tmp/my_saved_model/], the user placeholders
    [is_training=false dropout=0.0] and the output tensors [out_predict1] and
    [out_proba1]. *)

Definition example_model : SavedModelBundle := {| graph_def := 1%N; session := 2%N |}.

(** A splitter for the examples: square tiles whose side is the tile size
    alignment, row by row. *)
Definition grid_split (splitter : TileSplitter) (divisions : Z) (region : Region)
    : list Region :=
  let t := Z.max 1 (s_TileSizeAlignment splitter) in
  let x0 := region.1.1 in
  let y0 := region.1.2 in
  let w := region.2.1 in
  let h := region.2.2 in
  seqZ 0 (ceil_div h t) ≫= fun row =>
  (fun col => ((x0 + col * t, y0 + row * t),
               (Z.min t (w - col * t), Z.min t (h - row * t))))
  <$> seqZ 0 (ceil_div w t).

(** The collaborators of the examples: [sources] is the external count of
    sources and [size] the size of the output; only the model of the
    documentation can be loaded. *)
Definition example (sources : Z) (size : SizeType) : Collaborators :=
  {| tf_GetNumberOfSources := sources;
     tf_LoadModel := fun dir =>
       if String.eqb dir "/tmp/my_saved_model/" then Some example_model else None;
     tf_ExpressionToTensor := parse_placeholder;
     tf_OutputSize := fun _ => Some size;
     split_region := grid_split |}.

Definition example_settings (dir : string) (disabletiling : bool) (tilesize : Z)
    : list (string * Value) :=
  [("source1.il", VImageList ["spot6pms.tif"]);
   ("source1.placeholder", VString "x1");
   ("source1.fovx", VInt 16);
   ("source1.fovy", VInt 16);
   ("model.dir", VString dir);
   ("model.userplaceholders", VStringList ["is_training=false"; "dropout=0.0"]);
   ("output.names", VStringList ["out_predict1"; "out_proba1"]);
   ("finetuning.disabletiling", VBool disabletiling);
   ("finetuning.tilesize", VInt tilesize)].

Definition example_dict : DictListType :=
  [("is_training", TBool false); ("dropout", TFloat "0.0")].

(** The application of the example, ready to run. *)
Definition example_app (sources : Z) (size : SizeType) (dir : string)
    (disabletiling : bool) (tilesize : Z) : App :=
  @configured (example sources size) (example_settings dir disabletiling tilesize).

(** The count of sources is read once, and before any parameter is
    declared. *)
Definition count_read_once_before_groups (l : list Event) : Prop :=
  count is_GetNumberOfSources l = 1%nat
  ∧ all_before is_GetNumberOfSources is_AddParameter l = true.

(** * Properties *)

(** ** Strings and keys *)

Lemma string_app_cons (c : ascii) (x s : string) : String c x +:+ s = String c (x +:+ s).
Proof. reflexivity. Qed.

Lemma string_app_length (x s : string) :
  String.length (x +:+ s) = (String.length x + String.length s)%nat.
Proof. induction x as [|c x IH]; [reflexivity|]. rewrite string_app_cons. simpl. by rewrite IH. Qed.

Lemma string_app_inj_r (s x y : string) : x +:+ s = y +:+ s → x = y.
Proof.
  revert y. induction x as [|c x IH]; intros [|d y] E.
  - reflexivity.
  - apply (f_equal String.length) in E. rewrite !string_app_length in E. simpl in E. lia.
  - apply (f_equal String.length) in E. rewrite !string_app_length in E. simpl in E. lia.
  - rewrite !string_app_cons in E. injection E as -> E. f_equal. by apply IH.
Qed.

Lemma pretty_N_char_digit (x : N) : is_digit (pretty_N_char x) = true.
Proof. unfold pretty_N_char. by repeat case_match. Qed.

Lemma pretty_N_go_digits (x : N) (s : string) :
  all_digits s = true → all_digits (pretty_N_go x s) = true.
Proof.
  revert s. induction (N.lt_wf_0 x) as [x _ IH]; intros s Hs.
  destruct (decide (x = 0)%N) as [->|Hx].
  - by rewrite pretty_N_go_0.
  - rewrite pretty_N_go_step by lia. apply IH.
    + apply N.div_lt; lia.
    + simpl. by rewrite pretty_N_char_digit.
Qed.

Lemma pretty_nat_digits (i : nat) : all_digits (pretty i) = true.
Proof.
  unfold pretty, pretty_nat, pretty, pretty_N.
  case_decide; [reflexivity|]. by apply pretty_N_go_digits.
Qed.

Lemma strip_digits_app (d s : string) :
  all_digits d = true → strip_digits s = s → strip_digits (d +:+ s) = s.
Proof.
  induction d as [|c d IH]; intros Hd Hs; [exact Hs|].
  rewrite string_app_cons. simpl in *. apply andb_prop in Hd as [-> Hd]. by apply IH.
Qed.

Lemma strip_digits_suffix (s : string) :
  s = "" ∨ starts_with_dot s = true → strip_digits s = s.
Proof.
  intros [->|H]; [reflexivity|]. destruct s as [|c s]; [done|]. simpl in *.
  apply Ascii.eqb_eq in H as ->. reflexivity.
Qed.

(** Two keys of source groups are equal only for the same source and the
    same suffix. *)
Lemma source_key_inj (i j : nat) (s s' : string) :
  s = "" ∨ starts_with_dot s = true →
  s' = "" ∨ starts_with_dot s' = true →
  source_key i s = source_key j s' → i = j ∧ s = s'.
Proof.
  intros Hs Hs' E. unfold source_key, group_key in E.
  assert (E' : pretty i +:+ s = pretty j +:+ s').
  { unfold String.app in *. simpl in E. by simplify_eq. }
  assert (s = s') as <-.
  { apply (f_equal strip_digits) in E'.
    by rewrite !strip_digits_app in E'
      by auto using pretty_nat_digits, strip_digits_suffix. }
  split; [|done]. apply string_app_inj_r in E'. by apply (inj pretty).
Qed.

Lemma source_key_head (i : nat) (s : string) :
  ∃ r, source_key i s = String "s" r.
Proof. unfold source_key, group_key, String.app. simpl. eauto. Qed.

Lemma string_app_nil_r (x : string) : x +:+ "" = x.
Proof. induction x as [|c x IH]; [reflexivity|]. by rewrite string_app_cons, IH. Qed.

Lemma group_key_source_key (i : nat) : group_key i = source_key i "".
Proof. unfold source_key. by rewrite string_app_nil_r. Qed.

(** ** The declaration of the sources *)

Lemma AddAnInputImage_bundles (a : App) :
  m_Bundles (AddAnInputImage a)
  = m_Bundles a ++ [declared_bundle (S (length (m_Bundles a)))].
Proof. unfold AddAnInputImage. rewrite Nat.add_1_r. reflexivity. Qed.

Lemma AddAnInputImage_trace (a : App) :
  trace (AddAnInputImage a)
  = trace a ++ declared_events (S (length (m_Bundles a))).
Proof.
  unfold AddAnInputImage. rewrite Nat.add_1_r. simpl.
  by rewrite <- !app_assoc.
Qed.

Lemma AddAnInputImage_parameters (a : App) :
  parameters (AddAnInputImage a)
  = declared_parameters (S (length (m_Bundles a))) (parameters a).
Proof. unfold AddAnInputImage. rewrite Nat.add_1_r. reflexivity. Qed.

Lemma AddAnInputImage_others (a : App) :
  output_images (AddAnInputImage a) = output_images a
  ∧ m_TFFilter (AddAnInputImage a) = m_TFFilter a
  ∧ m_StreamFilter (AddAnInputImage a) = m_StreamFilter a
  ∧ m_SavedModel (AddAnInputImage a) = m_SavedModel a.
Proof. done. Qed.

Section Declaration.
Context `{!Collaborators}.

Lemma add_sources_bundles (k : nat) (a : App) :
  m_Bundles (add_sources k a)
  = m_Bundles a ++ (declared_bundle <$> seq (S (length (m_Bundles a))) k).
Proof.
  revert a. induction k as [|k IH]; intros a; simpl.
  - by rewrite app_nil_r.
  - rewrite IH, AddAnInputImage_bundles. simpl.
    rewrite length_app, Nat.add_1_r. simpl. by rewrite <- app_assoc.
Qed.

Lemma add_sources_parameters (k : nat) (a : App) :
  parameters (add_sources k a)
  = sources_table (S (length (m_Bundles a))) k (parameters a).
Proof.
  revert a. induction k as [|k IH]; intros a; simpl; [done|].
  rewrite IH, AddAnInputImage_bundles, AddAnInputImage_parameters. simpl.
  by rewrite length_app, Nat.add_1_r.
Qed.

Lemma add_sources_trace (k : nat) (a : App) :
  trace (add_sources k a)
  = trace a ++ loop_events (S (length (m_Bundles a))) k.
Proof.
  revert a. induction k as [|k IH]; intros a; simpl; [done|].
  rewrite IH, AddAnInputImage_bundles, AddAnInputImage_trace. simpl.
  rewrite length_app, Nat.add_1_r. unfold loop_events. simpl.
  by rewrite <- !app_assoc.
Qed.

(** The loop with its test written out ends, and does what the recursion
    on the number of remaining iterations does. *)
Lemma for_sources_add_sources (fuel : nat) (i : Z) (a : App) :
  (Z.to_nat (tf_GetNumberOfSources - i) < fuel)%nat →
  for_sources fuel i a = Some (add_sources (Z.to_nat (tf_GetNumberOfSources - i)) a).
Proof.
  revert i a. induction fuel as [|fuel IH]; intros i a Hfuel; [lia|].
  simpl. destruct (Z.ltb_spec i tf_GetNumberOfSources) as [Hlt|Hge].
  - rewrite IH by lia.
    replace (Z.to_nat (tf_GetNumberOfSources - i))
      with (S (Z.to_nat (tf_GetNumberOfSources - (i + 1)))) by lia.
    reflexivity.
  - replace (Z.to_nat (tf_GetNumberOfSources - i)) with O by lia. reflexivity.
Qed.

End Declaration.

(** ** The parameter table *)

Ltac key_ne :=
  let E := fresh "E" in
  intros E; first
    [ discriminate E
    | rewrite ?group_key_source_key in E;
      apply source_key_inj in E as [? ?]; [first [discriminate | lia | done] | auto ..] ].

Ltac skip_key :=
  first [ rewrite lookup_insert_ne by key_ne | rewrite lookup_alter_ne by key_ne ].

Lemma declared_parameters_fovx (i : nat) (t : gmap string ParameterDecl) :
  declared_parameters i t !! source_key i ".fovx"
  = Some (fov_parameter "Field of view width for source #" i).
Proof.
  unfold declared_parameters. repeat skip_key.
  by rewrite lookup_alter_eq, lookup_insert_eq.
Qed.

Lemma declared_parameters_fovy (i : nat) (t : gmap string ParameterDecl) :
  declared_parameters i t !! source_key i ".fovy"
  = Some (fov_parameter "Field of view height for source #" i).
Proof.
  unfold declared_parameters. repeat skip_key.
  by rewrite lookup_alter_eq, lookup_insert_eq.
Qed.

(** The keys of the group of a source are those of no other source. *)
Lemma declared_parameters_other (i j : nat) (s : string) (t : gmap string ParameterDecl) :
  i ≠ j → s = "" ∨ starts_with_dot s = true →
  declared_parameters i t !! source_key j s = t !! source_key j s.
Proof. intros Hij Hs. unfold declared_parameters. by repeat skip_key. Qed.

(** A key that does not start like the key of a source is not touched. *)
Lemma declared_parameters_static (i : nat) (k : string) (t : gmap string ParameterDecl) :
  (∀ r, k ≠ String "s" r) →
  declared_parameters i t !! k = t !! k.
Proof.
  intros Hk. unfold declared_parameters.
  assert (∀ s, source_key i s ≠ k) as Hne.
  { intros s E. destruct (source_key_head i s) as [r Hr]. rewrite Hr in E.
    by apply (Hk r). }
  rewrite group_key_source_key.
  by repeat first [ rewrite lookup_insert_ne by apply Hne
                  | rewrite lookup_alter_ne by apply Hne ].
Qed.

Lemma sources_table_snoc (first k : nat) (t : gmap string ParameterDecl) :
  sources_table first (S k) t
  = declared_parameters (first + k) (sources_table first k t).
Proof. unfold sources_table. by rewrite seq_S, foldl_app. Qed.

Lemma sources_table_static (first k : nat) (key : string) (t : gmap string ParameterDecl) :
  (∀ r, key ≠ String "s" r) →
  sources_table first k t !! key = t !! key.
Proof.
  intros Hk. induction k as [|k IH]; [done|].
  by rewrite sources_table_snoc, declared_parameters_static.
Qed.

Lemma sources_table_fovx (first k i : nat) (t : gmap string ParameterDecl) :
  (first ≤ i < first + k)%nat →
  sources_table first k t !! source_key i ".fovx"
  = Some (fov_parameter "Field of view width for source #" i).
Proof.
  induction k as [|k IH]; intros Hi; [lia|].
  rewrite sources_table_snoc.
  destruct (decide (i = first + k)%nat) as [->|Hne].
  - apply declared_parameters_fovx.
  - rewrite declared_parameters_other by (auto; lia). apply IH. lia.
Qed.

Lemma sources_table_fovy (first k i : nat) (t : gmap string ParameterDecl) :
  (first ≤ i < first + k)%nat →
  sources_table first k t !! source_key i ".fovy"
  = Some (fov_parameter "Field of view height for source #" i).
Proof.
  induction k as [|k IH]; intros Hi; [lia|].
  rewrite sources_table_snoc.
  destruct (decide (i = first + k)%nat) as [->|Hne].
  - apply declared_parameters_fovy.
  - rewrite declared_parameters_other by (auto; lia). apply IH. lia.
Qed.

(** ** The execution *)

Arguments ParameterInt : simpl never.
Arguments ParameterFloat : simpl never.
Arguments ParameterAsString : simpl never.
Arguments ParameterStringList : simpl never.
Arguments ParameterImageList : simpl never.
Arguments nbDesiredTiles : simpl never.
Arguments GetNumberOfPixels : simpl never.
Arguments to_SizeValue : simpl never.
Arguments to_uint : simpl never.
Arguments float_of_Z : simpl never.
Arguments double_of_Z : simpl never.
Arguments double_div : simpl never.
Arguments Ceil_uint : simpl never.

Lemma logs_nil (a : App) : logs [] a = a.
Proof. destruct a. unfold logs. simpl. by rewrite app_nil_r. Qed.

Lemma logs_logs (es es' : list Event) (a : App) :
  logs es' (logs es a) = logs (es ++ es') a.
Proof. unfold logs. simpl. by rewrite app_assoc. Qed.

Lemma log_logs (e : Event) (a : App) : log e a = logs [e] a.
Proof. reflexivity. Qed.

(** Unfolds the operations of the monad and the straight-line calls. *)
Ltac run :=
  cbv beta iota zeta delta
    [bind ret get modify call throw
     GetParameterInt GetParameterFloat GetParameterAsString
     GetParameterStringList GetParameterImageList SetParameterOutputImage
     on_filter SetGraph SetSession SetOutputTensorsNames SetOutputSpacingScale
     SetUserPlaceholders PushBackInputBundle SetFullyConvolutional SetOutputFOESize
     on_stream].

(** Computes the fields of the states and of the filters, and nothing
    else. *)
Tactic Notation "fields" "in" hyp(H) :=
  cbv beta iota delta
    [parameters output_images m_TFFilter m_StreamFilter m_SavedModel m_Bundles trace
     set_parameters set_output_images set_TFFilter set_StreamFilter set_SavedModel
     set_Bundles log logs with_inputs
     f_Graph f_Session f_OutputTensorsNames f_OutputSpacingScale f_UserPlaceholders
     f_Inputs f_FullyConvolutional f_OutputFOESize
     st_RegionSplitter st_NumberOfStreamDivisions st_Input
     SetRegionSplitter SetNumberOfStreamDivisions SetInput
     TFModelFilter_New StreamingFilter_New option_map option_bind] in H;
  cbn [app] in H.

Tactic Notation "fields" :=
  cbv beta iota delta
    [parameters output_images m_TFFilter m_StreamFilter m_SavedModel m_Bundles trace
     set_parameters set_output_images set_TFFilter set_StreamFilter set_SavedModel
     set_Bundles log logs with_inputs
     f_Graph f_Session f_OutputTensorsNames f_OutputSpacingScale f_UserPlaceholders
     f_Inputs f_FullyConvolutional f_OutputFOESize
     st_RegionSplitter st_NumberOfStreamDivisions st_Input
     SetRegionSplitter SetNumberOfStreamDivisions SetInput
     TFModelFilter_New StreamingFilter_New option_map option_bind];
  cbn [app].

(** Computes a state that is built from an explicit record. *)
Ltac states :=
  cbv beta iota delta
    [parameters output_images m_TFFilter m_StreamFilter m_SavedModel m_Bundles trace
     set_parameters set_output_images set_TFFilter set_StreamFilter set_SavedModel
     set_Bundles log logs].

Section Execution.
Context `{!Collaborators}.

Lemma prepare_bundle_run (bundle : ProcessObjectsBundle) (a : App) :
  prepare_bundle bundle a
  = Returned (prepared_bundle (parameters a) bundle) (logs (prepare_events bundle) a).
Proof.
  unfold prepare_bundle. run. by rewrite !log_logs, !logs_logs.
Qed.

Lemma traverse_prepare_run (bundles : list ProcessObjectsBundle) (a : App) :
  traverse prepare_bundle bundles a
  = Returned (prepared_bundle (parameters a) <$> bundles)
             (logs (bundles ≫= prepare_events) a).
Proof.
  revert a. induction bundles as [|b bundles IH]; intros a.
  - simpl. unfold ret. by rewrite logs_nil.
  - simpl. unfold bind at 1. rewrite prepare_bundle_run.
    unfold bind at 1. rewrite IH. unfold ret.
    by rewrite logs_logs.
Qed.

Lemma PrepareInputs_run (a : App) :
  PrepareInputs a
  = Returned tt (set_Bundles (prepared_bundle (parameters a) <$> m_Bundles a)
                             (logs (m_Bundles a ≫= prepare_events) a)).
Proof.
  unfold PrepareInputs, bind, get. by rewrite traverse_prepare_run.
Qed.

Lemma parse_expressions_run (expressions : list string) (dict dict' : DictListType) (a : App) :
  parse_all expressions = Some dict' →
  parse_expressions expressions dict a
  = Returned (dict ++ dict') (logs (parse_events expressions) a).
Proof.
  revert dict dict' a. induction expressions as [|e rest IH]; intros dict dict' a Hp.
  - simpl in *. simplify_eq. unfold ret. by rewrite logs_nil, app_nil_r.
  - simpl in Hp. destruct (tf_ExpressionToTensor e) as [entry|] eqn:He; [|done].
    destruct (parse_all rest) as [d|] eqn:Hr; [|done]. simpl in Hp. simplify_eq.
    simpl. unfold bind at 1, ExpressionToTensor, bind at 1, call, modify.
    rewrite He. unfold ret at 1.
    rewrite (IH _ d) by done. rewrite log_logs, logs_logs.
    by rewrite <- app_assoc.
Qed.

(** A malformed expression ends the parsing with an exception, after the
    expressions before it have been parsed and none after it. *)
Lemma parse_expressions_throws (expressions : list string) (dict : DictListType) (a : App) :
  parse_all expressions = None →
  ∃ done e rest,
    expressions = done ++ e :: rest
    ∧ is_Some (parse_all done)
    ∧ tf_ExpressionToTensor e = None
    ∧ parse_expressions expressions dict a
      = Thrown (ExpressionError e) (logs (parse_events (done ++ [e])) a).
Proof.
  revert dict a. induction expressions as [|e rest IH]; intros dict a Hp; [done|].
  simpl in Hp. destruct (tf_ExpressionToTensor e) as [entry|] eqn:He.
  - destruct (parse_all rest) as [d|] eqn:Hr; [done|].
    destruct (IH (dict ++ [entry]) (log (EvExpressionToTensor e) a) eq_refl)
      as (done & e' & rest' & -> & [d Hd] & He' & Hrun).
    exists (e :: done), e', rest'. split_and!; [done| |done|].
    + simpl. rewrite He, Hd. by eexists.
    + simpl. unfold bind at 1, ExpressionToTensor, bind at 1, call, modify.
      rewrite He. unfold ret at 1. rewrite Hrun.
      by rewrite log_logs, logs_logs.
  - exists [], e, rest. split_and!; [done|by eexists|done|].
    simpl. unfold bind at 1, ExpressionToTensor, bind at 1, call, modify.
    by rewrite He.
Qed.

Lemma for_each_push_run (bundles : list ProcessObjectsBundle) (f : TFModelFilter) (a : App) :
  m_TFFilter a = Some f →
  for_each push_bundle bundles a
  = Returned tt (set_TFFilter (Some (with_inputs (f_Inputs f ++ (bundle_input <$> bundles)) f))
                              (logs (push_event <$> bundles) a)).
Proof.
  revert f a. induction bundles as [|b bundles IH]; intros f a Hf.
  - simpl. unfold ret. rewrite logs_nil, app_nil_r.
    destruct a, f. simpl in *. by rewrite Hf.
  - simpl. unfold push_bundle at 1. run.
    erewrite IH; last by (simpl; rewrite Hf).
    destruct a, f. unfold set_TFFilter, logs, with_inputs. simpl.
    by rewrite <- !app_assoc.
Qed.

Lemma DoExecute_load_fails (a : App) :
  tf_LoadModel (ParameterAsString "model.dir" (parameters a)) = None →
  DoExecute a
  = Thrown (LoadError (ParameterAsString "model.dir" (parameters a)))
           (logs (load_events (parameters a)) a).
Proof.
  intros Hload. destruct a as [t o f s m b tr]. fields in Hload.
  unfold DoExecute, LoadModel. run. fields. rewrite Hload. run.
  unfold load_events. states. by rewrite <- app_assoc.
Qed.

Ltac execute_to_parsing Hload :=
  unfold DoExecute, LoadModel; run; fields; rewrite Hload; run;
  rewrite PrepareInputs_run; run; fields.

Ltac execute_to_streaming Hload Hparse :=
  execute_to_parsing Hload;
  erewrite parse_expressions_run by exact Hparse; run;
  erewrite for_each_push_run by reflexivity; run; fields.

Ltac same_trace :=
  repeat (progress (rewrite <- ?app_assoc; cbn [app])); reflexivity.

Ltac unfold_events :=
  unfold executed, interrupted, configured_filter, execute_events, load_events,
    setup_events, wiring_events, untiled_events, tiled_events, tiling_filter.

Lemma DoExecute_parse_fails (a : App) (model : SavedModelBundle) :
  let t := parameters a in
  tf_LoadModel (ParameterAsString "model.dir" t) = Some model →
  parse_all (ParameterStringList "model.userplaceholders" t) = None →
  ∃ done e rest f,
    ParameterStringList "model.userplaceholders" t = done ++ e :: rest
    ∧ is_Some (parse_all done)
    ∧ tf_ExpressionToTensor e = None
    ∧ DoExecute a
      = Thrown (ExpressionError e)
          (interrupted a model f
             (load_events t ++ setup_events (m_Bundles a) ++ parse_events (done ++ [e]))).
Proof.
  intros t' Hload Hparse. subst t'. destruct a as [t o f s m b tr].
  fields in Hload; fields in Hparse.
  execute_to_parsing Hload.
  match goal with
  | |- context [parse_expressions ?l ?d ?st] =>
      destruct (parse_expressions_throws l d st Hparse)
        as (done & e & rest & Hl & Hdone & He & Hrun)
  end.
  eexists done, e, rest, _. split_and!; [done..|].
  rewrite Hrun. unfold_events. states. fields.
  do 2 f_equal. same_trace.
Qed.

Lemma DoExecute_untiled (a : App) (model : SavedModelBundle) (dict : DictListType) :
  tf_LoadModel (ParameterAsString "model.dir" (parameters a)) = Some model →
  parse_all (ParameterStringList "model.userplaceholders" (parameters a)) = Some dict →
  ParameterInt "finetuning.disabletiling" (parameters a) = 1 →
  DoExecute a
  = Returned tt (executed a model dict (m_StreamFilter a) TFFilter_Output untiled_events).
Proof.
  intros Hload Hparse Htiling. destruct a as [t o f s m b tr].
  fields in Hload; fields in Hparse; fields in Htiling.
  apply Z.eqb_eq in Htiling.
  execute_to_streaming Hload Hparse.
  destruct (ParameterInt "model.fullyconv" t =? 1) eqn:Hfc;
    run; fields; rewrite Htiling; cbn [negb]; run; fields;
    unfold_events; states; fields; rewrite Hfc;
    do 2 f_equal; same_trace.
Qed.

Lemma DoExecute_tiled (a : App) (model : SavedModelBundle) (dict : DictListType)
    (size : SizeType) (nb : Z) :
  let t := parameters a in
  let tileSize := to_uint (ParameterInt "finetuning.tilesize" t) in
  tf_LoadModel (ParameterAsString "model.dir" t) = Some model →
  parse_all (ParameterStringList "model.userplaceholders" t) = Some dict →
  ParameterInt "finetuning.disabletiling" t ≠ 1 →
  tf_OutputSize (configured_filter t (m_Bundles a) model dict) = Some size →
  nbDesiredTiles (GetNumberOfPixels size) tileSize = Some nb →
  DoExecute a
  = Returned tt (executed a model dict (Some (tiling_filter tileSize nb))
                          StreamFilter_Output tiled_events).
Proof.
  intros t' tileSize Hload Hparse Htiling Hsize Hnb. subst t' tileSize.
  destruct a as [t o f s m b tr].
  fields in Hload; fields in Hparse; fields in Htiling; fields in Hsize; fields in Hnb.
  apply Z.eqb_neq in Htiling. unfold configured_filter in Hsize.
  execute_to_streaming Hload Hparse.
  destruct (ParameterInt "model.fullyconv" t =? 1) eqn:Hfc;
    run; fields; rewrite Htiling; cbn [negb];
    unfold UpdateOutputInformation; run; fields; rewrite Hsize; run; fields;
    rewrite Hnb; run; fields;
    unfold_events; states; fields; rewrite Hfc;
    do 2 f_equal; same_trace.
Qed.

Lemma DoExecute_output_information_fails (a : App) (model : SavedModelBundle)
    (dict : DictListType) :
  let t := parameters a in
  tf_LoadModel (ParameterAsString "model.dir" t) = Some model →
  parse_all (ParameterStringList "model.userplaceholders" t) = Some dict →
  ParameterInt "finetuning.disabletiling" t ≠ 1 →
  tf_OutputSize (configured_filter t (m_Bundles a) model dict) = None →
  DoExecute a
  = Thrown OutputInformationError
      (interrupted a model (configured_filter t (m_Bundles a) model dict)
         (execute_events t (m_Bundles a)
            [EvGetParameter "finetuning.tilesize"; EvUpdateOutputInformation])).
Proof.
  intros t' Hload Hparse Htiling Hsize. subst t'.
  destruct a as [t o f s m b tr].
  fields in Hload; fields in Hparse; fields in Htiling; fields in Hsize.
  apply Z.eqb_neq in Htiling. unfold configured_filter in Hsize.
  execute_to_streaming Hload Hparse.
  destruct (ParameterInt "model.fullyconv" t =? 1) eqn:Hfc;
    run; fields; rewrite Htiling; cbn [negb];
    unfold UpdateOutputInformation; run; fields; rewrite Hsize; run; fields;
    unfold_events; states; fields; rewrite Hfc;
    do 2 f_equal; same_trace.
Qed.

Lemma DoExecute_conversion_undefined (a : App) (model : SavedModelBundle)
    (dict : DictListType) (size : SizeType) :
  let t := parameters a in
  let tileSize := to_uint (ParameterInt "finetuning.tilesize" t) in
  tf_LoadModel (ParameterAsString "model.dir" t) = Some model →
  parse_all (ParameterStringList "model.userplaceholders" t) = Some dict →
  ParameterInt "finetuning.disabletiling" t ≠ 1 →
  tf_OutputSize (configured_filter t (m_Bundles a) model dict) = Some size →
  nbDesiredTiles (GetNumberOfPixels size) tileSize = None →
  DoExecute a
  = Thrown ConversionUndefined
      (interrupted a model (configured_filter t (m_Bundles a) model dict)
         (execute_events t (m_Bundles a)
            [EvGetParameter "finetuning.tilesize"; EvUpdateOutputInformation;
             EvSplitterNew])).
Proof.
  intros t' tileSize Hload Hparse Htiling Hsize Hnb. subst t' tileSize.
  destruct a as [t o f s m b tr].
  fields in Hload; fields in Hparse; fields in Htiling; fields in Hsize; fields in Hnb.
  apply Z.eqb_neq in Htiling. unfold configured_filter in Hsize.
  execute_to_streaming Hload Hparse.
  destruct (ParameterInt "model.fullyconv" t =? 1) eqn:Hfc;
    run; fields; rewrite Htiling; cbn [negb];
    unfold UpdateOutputInformation; run; fields; rewrite Hsize; run; fields;
    rewrite Hnb; run; fields;
    unfold_events; states; fields; rewrite Hfc;
    do 2 f_equal; same_trace.
Qed.

End Execution.

(** ** [DoInit] *)

Lemma SetParameterValue_fields (key : string) (v : Value) (a : App) :
  m_Bundles (SetParameterValue key v a) = m_Bundles a
  ∧ trace (SetParameterValue key v a) = trace a
  ∧ m_TFFilter (SetParameterValue key v a) = m_TFFilter a
  ∧ m_StreamFilter (SetParameterValue key v a) = m_StreamFilter a
  ∧ output_images (SetParameterValue key v a) = output_images a.
Proof. done. Qed.

Lemma configure_fields (settings : list (string * Value)) (a : App) :
  m_Bundles (configure settings a) = m_Bundles a
  ∧ trace (configure settings a) = trace a
  ∧ m_TFFilter (configure settings a) = m_TFFilter a
  ∧ m_StreamFilter (configure settings a) = m_StreamFilter a
  ∧ output_images (configure settings a) = output_images a.
Proof.
  revert a. induction settings as [|[k v] settings IH]; intros a; [done|].
  simpl. destruct (IH (SetParameterValue k v a)) as (-> & -> & -> & -> & ->). done.
Qed.

Section Initialisation.
Context `{!Collaborators}.

Lemma number_of_sources_max :
  Z.of_nat number_of_sources = Z.max 1 tf_GetNumberOfSources.
Proof. unfold number_of_sources. lia. Qed.

Lemma DoInit_bundles :
  m_Bundles (DoInit App_New) = declared_bundle <$> seq 1 number_of_sources.
Proof.
  unfold DoInit. cbn [m_Bundles AddParameter SetMinimumParameterIntValue
    SetDefaultParameterInt SetDefaultParameterFloat MandatoryOn MandatoryOff
    set_parameters log].
  rewrite add_sources_bundles, AddAnInputImage_bundles. reflexivity.
Qed.

Lemma DoInit_trace :
  trace (DoInit App_New)
  = declared_events 1 ++ loop_events 2 (Z.to_nat (tf_GetNumberOfSources - 1))
    ++ static_events.
Proof.
  unfold DoInit. cbn [trace AddParameter SetMinimumParameterIntValue
    SetDefaultParameterInt SetDefaultParameterFloat MandatoryOn MandatoryOff
    set_parameters log].
  rewrite add_sources_trace, AddAnInputImage_bundles, AddAnInputImage_trace.
  cbn [m_Bundles trace App_New length app]. unfold static_events.
  cbn [fmap list_fmap]. by rewrite <- !app_assoc.
Qed.

Lemma DoInit_others :
  m_TFFilter (DoInit App_New) = None
  ∧ m_StreamFilter (DoInit App_New) = None
  ∧ output_images (DoInit App_New) = ∅.
Proof.
  unfold DoInit. cbn [m_TFFilter m_StreamFilter output_images AddParameter
    SetMinimumParameterIntValue SetDefaultParameterInt SetDefaultParameterFloat
    MandatoryOn MandatoryOff set_parameters log].
  generalize (Z.to_nat (tf_GetNumberOfSources - 1)). intros k.
  assert (∀ a, m_TFFilter (add_sources k a) = m_TFFilter a
               ∧ m_StreamFilter (add_sources k a) = m_StreamFilter a
               ∧ output_images (add_sources k a) = output_images a) as Hk.
  { induction k as [|k IH]; intros a; [done|]. simpl.
    destruct (IH (AddAnInputImage (log EvGetNumberOfSources a))) as (-> & -> & ->).
    done. }
  destruct (Hk (AddAnInputImage App_New)) as (-> & -> & ->). done.
Qed.

(** The table after the sources have been declared. *)
Lemma DoInit_sources_table :
  parameters (add_sources (Z.to_nat (tf_GetNumberOfSources - 1)) (AddAnInputImage App_New))
  = sources_table 1 number_of_sources ∅.
Proof.
  rewrite add_sources_parameters, AddAnInputImage_bundles, AddAnInputImage_parameters.
  reflexivity.
Qed.

End Initialisation.

(** ** The declared defaults and minimums *)

(** What [AddAnInputImage] writes in the table for one source. *)
Lemma declared_parameters_inv (i : nat) (t : gmap string ParameterDecl)
    (key : string) (p : ParameterDecl) :
  declared_parameters i t !! key = Some p →
  t !! key = Some p
  ∨ (key = source_key i ".fovx" ∧ p = fov_parameter "Field of view width for source #" i)
  ∨ (key = source_key i ".fovy" ∧ p = fov_parameter "Field of view height for source #" i)
  ∨ (p_minimum p = None ∧ p_default p = None).
Proof.
  unfold declared_parameters. intros Hp.
  repeat match type of Hp with
  | <[_ := _]> _ !! _ = _ =>
      apply lookup_insert_Some in Hp as [[<- <-]|[? Hp]]; [by auto|]
  | alter _ _ _ !! _ = _ =>
      apply lookup_alter_Some in Hp as [(<- & q & Hq & ->)|[? Hp]];
        [rewrite lookup_insert_eq in Hq; injection Hq as <-; by auto|]
  end.
  by left.
Qed.

Lemma sources_table_inv (first k : nat) (t : gmap string ParameterDecl)
    (key : string) (p : ParameterDecl) :
  sources_table first k t !! key = Some p →
  t !! key = Some p
  ∨ (∃ i, (first ≤ i < first + k)%nat
          ∧ ((key = source_key i ".fovx"
              ∧ p = fov_parameter "Field of view width for source #" i)
             ∨ (key = source_key i ".fovy"
                ∧ p = fov_parameter "Field of view height for source #" i)))
  ∨ (p_minimum p = None ∧ p_default p = None).
Proof.
  induction k as [|k IH]; intros Hp; [by left|].
  rewrite sources_table_snoc in Hp.
  apply declared_parameters_inv in Hp as [Hp|[[-> ->]|[[-> ->]|Hp]]].
  - destruct (IH Hp) as [?|[(i & Hi & Hkey)|?]]; [by left| |by auto].
    right; left. exists i. split; [lia|done].
  - right; left. exists (first + k)%nat. split; [lia|by left].
  - right; left. exists (first + k)%nat. split; [lia|by right].
  - by auto.
Qed.

Section Surface.
Context `{!Collaborators}.

Ltac expose_table :=
  unfold DoInit;
  cbn [parameters AddParameter SetMinimumParameterIntValue SetDefaultParameterInt
       SetDefaultParameterFloat MandatoryOn MandatoryOff set_parameters log];
  rewrite DoInit_sources_table.

Ltac static_lookup :=
  repeat first
    [ rewrite lookup_insert_eq
    | rewrite lookup_alter_eq
    | rewrite lookup_insert_ne by discriminate
    | rewrite lookup_alter_ne by discriminate ].

Lemma DoInit_lookup_source (key : string) :
  (∃ r, key = String "s" r) →
  parameters (DoInit App_New) !! key = sources_table 1 number_of_sources ∅ !! key.
Proof. intros [r ->]. expose_table. by static_lookup. Qed.

Lemma DoInit_spcscale :
  parameters (DoInit App_New) !! "output.spcscale"
  = Some (with_default (VFloat float_one)
            (new_parameter ParameterType_Float "The output spacing scale")).
Proof. expose_table. by static_lookup. Qed.

Lemma DoInit_foex :
  parameters (DoInit App_New) !! "output.foex"
  = Some (with_mandatory true (with_default (VInt 1) (with_minimum 1
            (new_parameter ParameterType_Int "The output field of expression (x)")))).
Proof. expose_table. by static_lookup. Qed.

Lemma DoInit_foey :
  parameters (DoInit App_New) !! "output.foey"
  = Some (with_mandatory true (with_default (VInt 1) (with_minimum 1
            (new_parameter ParameterType_Int "The output field of expression (y)")))).
Proof. expose_table. by static_lookup. Qed.

Lemma DoInit_tilesize :
  parameters (DoInit App_New) !! "finetuning.tilesize"
  = Some (with_default (VInt 16) (with_minimum 1
            (new_parameter ParameterType_Int "Tile width used to stream the filter output"))).
Proof. expose_table. by static_lookup. Qed.

Ltac pick_case := solve [ repeat first [ left; by cbn | right ]; by cbn ].

(** Every entry of the table is an entry of a source, or one of the four
    parameters with a default, or has neither a minimum nor a default. *)
Lemma DoInit_table_inv (key : string) (p : ParameterDecl) :
  parameters (DoInit App_New) !! key = Some p →
  sources_table 1 number_of_sources ∅ !! key = Some p
  ∨ (key = "output.spcscale" ∧ p_minimum p = None ∧ p_default p = Some (VFloat float_one))
  ∨ (key = "output.foex" ∧ p_minimum p = Some 1 ∧ p_default p = Some (VInt 1))
  ∨ (key = "output.foey" ∧ p_minimum p = Some 1 ∧ p_default p = Some (VInt 1))
  ∨ (key = "finetuning.tilesize" ∧ p_minimum p = Some 1 ∧ p_default p = Some (VInt 16))
  ∨ (p_minimum p = None ∧ p_default p = None).
Proof.
  expose_table. intros Hp.
  repeat match type of Hp with
  | <[_ := _]> _ !! _ = _ =>
      apply lookup_insert_Some in Hp as [[<- <-]|[? Hp]]; [pick_case|]
  | alter _ _ _ !! _ = _ =>
      let q := fresh "q" in
      let Hq := fresh "Hq" in
      apply lookup_alter_Some in Hp as [(<- & q & Hq & ->)|[? Hp]];
        [revert Hq; static_lookup; intros [= <-]; pick_case|]
  end.
  by left.
Qed.

(** C7.  The table that [DoInit] declares has, for every source, a
    field of view width and height with minimum 1; the output spacing scale
    defaults to 1.0 (and has no minimum); the output field of expression
    defaults to 1 with minimum 1 in both directions; the tile size defaults
    to 16 with minimum 1.  These are the only minimums and the only defaults
    of the table. *)
Theorem declared_defaults_and_minimums :
  let t := parameters (DoInit App_New) in
  (∀ i, (1 ≤ i ≤ number_of_sources)%nat →
     (∃ p, t !! source_key i ".fovx" = Some p
           ∧ p_type p = ParameterType_Int ∧ p_minimum p = Some 1)
     ∧ (∃ p, t !! source_key i ".fovy" = Some p
             ∧ p_type p = ParameterType_Int ∧ p_minimum p = Some 1))
  ∧ (∃ p, t !! "output.spcscale" = Some p
          ∧ p_type p = ParameterType_Float
          ∧ p_default p = Some (VFloat float_one)
          ∧ float_value float_one = Some 1%Q)
  ∧ (∃ p, t !! "output.foex" = Some p
          ∧ p_type p = ParameterType_Int
          ∧ p_default p = Some (VInt 1) ∧ p_minimum p = Some 1)
  ∧ (∃ p, t !! "output.foey" = Some p
          ∧ p_type p = ParameterType_Int
          ∧ p_default p = Some (VInt 1) ∧ p_minimum p = Some 1)
  ∧ (∃ p, t !! "finetuning.tilesize" = Some p
          ∧ p_type p = ParameterType_Int
          ∧ p_default p = Some (VInt 16) ∧ p_minimum p = Some 1)
  ∧ (∀ key p m, t !! key = Some p → p_minimum p = Some m →
       m = 1
       ∧ (key ∈ ["output.foex"; "output.foey"; "finetuning.tilesize"]
          ∨ ∃ i, (1 ≤ i ≤ number_of_sources)%nat
                 ∧ (key = source_key i ".fovx" ∨ key = source_key i ".fovy")))
  ∧ (∀ key p v, t !! key = Some p → p_default p = Some v →
       key ∈ ["output.spcscale"; "output.foex"; "output.foey"; "finetuning.tilesize"]).
Proof.
  intros t. subst t. split_and!.
  - intros i Hi. split.
    + eexists. rewrite DoInit_lookup_source by apply source_key_head.
      rewrite sources_table_fovx by lia. done.
    + eexists. rewrite DoInit_lookup_source by apply source_key_head.
      rewrite sources_table_fovy by lia. done.
  - eexists. rewrite DoInit_spcscale. split_and!; [done..|]. by vm_compute.
  - eexists. rewrite DoInit_foex. done.
  - eexists. rewrite DoInit_foey. done.
  - eexists. rewrite DoInit_tilesize. done.
  - intros key p m Hp Hm.
    apply DoInit_table_inv in Hp
      as [Hp|[(-> & Hmin & _)|[(-> & Hmin & _)|[(-> & Hmin & _)|[(-> & Hmin & _)|[Hmin _]]]]]];
      try rewrite Hmin in Hm; simplify_eq.
    + apply sources_table_inv in Hp as [Hp|[(i & Hi & Hkey)|[Hmin _]]].
      * by rewrite lookup_empty in Hp.
      * assert (m = 1) as ->.
        { destruct Hkey as [[_ ->]|[_ ->]]; cbn in Hm; by simplify_eq. }
        split; [done|]. right. exists i. split; [lia|].
        destruct Hkey as [[-> _]|[-> _]]; [by left|by right].
      * rewrite Hmin in Hm. done.
    + split; [done|]. left. set_solver.
    + split; [done|]. left. set_solver.
    + split; [done|]. left. set_solver.
  - intros key p v Hp Hv.
    apply DoInit_table_inv in Hp
      as [Hp|[(-> & _ & Hd)|[(-> & _ & Hd)|[(-> & _ & Hd)|[(-> & _ & Hd)|[_ Hd]]]]]];
      try set_solver.
    + apply sources_table_inv in Hp as [Hp|[(i & Hi & Hkey)|[_ Hd]]].
      * by rewrite lookup_empty in Hp.
      * destruct Hkey as [[_ ->]|[_ ->]]; cbn in Hv; by simplify_eq.
      * rewrite Hd in Hv. done.
Qed.

End Surface.

(** ** The outcomes of an execution *)

Section Outcomes.
Context `{!Collaborators}.

(** A [DoExecute] that returns has loaded the model and parsed every
    expression, and has ended in one of the two ways. *)
Lemma DoExecute_returns_inv (a a' : App) :
  DoExecute a = Returned tt a' →
  ∃ model dict stream out tail,
    tf_LoadModel (ParameterAsString "model.dir" (parameters a)) = Some model
    ∧ parse_all (ParameterStringList "model.userplaceholders" (parameters a)) = Some dict
    ∧ streaming_choice a model dict stream out tail
    ∧ a' = executed a model dict stream out tail.
Proof.
  intros Hrun.
  destruct (tf_LoadModel (ParameterAsString "model.dir" (parameters a)))
    as [model|] eqn:Hload; [|by rewrite DoExecute_load_fails in Hrun].
  destruct (parse_all (ParameterStringList "model.userplaceholders" (parameters a)))
    as [dict|] eqn:Hparse.
  2: { destruct (DoExecute_parse_fails a model Hload Hparse)
         as (? & ? & ? & ? & _ & _ & _ & Hthrown).
       by rewrite Hthrown in Hrun. }
  exists model, dict.
  destruct (decide (ParameterInt "finetuning.disabletiling" (parameters a) = 1))
    as [Htiling|Htiling].
  { rewrite (DoExecute_untiled a model dict) in Hrun by done. injection Hrun as <-.
    eexists _, _, _. split_and!; [done..| |done]. by constructor. }
  destruct (tf_OutputSize (configured_filter (parameters a) (m_Bundles a) model dict))
    as [size|] eqn:Hsize.
  2: { by rewrite (DoExecute_output_information_fails a model dict) in Hrun. }
  destruct (nbDesiredTiles (GetNumberOfPixels size)
              (to_uint (ParameterInt "finetuning.tilesize" (parameters a))))
    as [nb|] eqn:Hnb.
  2: { by rewrite (DoExecute_conversion_undefined a model dict size) in Hrun. }
  rewrite (DoExecute_tiled a model dict size nb) in Hrun by done. injection Hrun as <-.
  eexists _, _, _. split_and!; [done..| |done]. by econstructor.
Qed.

(** [DoExecute] returns when the model loads, every expression is well
    formed and, with tiling, the output information and the number of
    tiles are defined. *)
Lemma DoExecute_returns (a : App) (model : SavedModelBundle) (dict : DictListType)
    (stream : option StreamingFilter) (out : ImageRef) (tail : list Event) :
  tf_LoadModel (ParameterAsString "model.dir" (parameters a)) = Some model →
  parse_all (ParameterStringList "model.userplaceholders" (parameters a)) = Some dict →
  streaming_choice a model dict stream out tail →
  DoExecute a = Returned tt (executed a model dict stream out tail).
Proof.
  intros Hload Hparse [Htiling|size nb tileSize Htiling Hsize Hnb].
  - by apply DoExecute_untiled.
  - by apply (DoExecute_tiled a model dict size nb).
Qed.

Lemma for_each_tiles_run (tiles : list Region) (a : App) :
  for_each (fun tile => call (EvComputeTile tile)) tiles a
  = Returned tt (logs (EvComputeTile <$> tiles) a).
Proof.
  revert a. induction tiles as [|tile tiles IH]; intros a.
  - simpl. unfold ret. by rewrite logs_nil.
  - simpl. run. rewrite IH. by rewrite log_logs, logs_logs.
Qed.

Lemma WriteOutput_run (a : App) (f : TFModelFilter) (size : SizeType) :
  m_TFFilter a = Some f → tf_OutputSize f = Some size →
  WriteOutput a
  = Returned tt (logs (EvComputeTile <$> requested_regions a ((0, 0), size)) a).
Proof.
  intros Hf Hsize. unfold WriteOutput. run. rewrite Hf. cbn [option_bind].
  rewrite Hsize. run. by rewrite for_each_tiles_run.
Qed.

Lemma WriteOutput_throws (a : App) :
  option_bind _ _ tf_OutputSize (m_TFFilter a) = None →
  WriteOutput a = Thrown OutputInformationError a.
Proof. intros Hf. unfold WriteOutput. run. by rewrite Hf. Qed.

(** A run that returns is a [DoExecute] that returns, followed by the
    computation of the regions the sink asks for. *)
Lemma run_returns_inv (a a' : App) :
  ExecuteAndWriteOutput a = Returned tt a' →
  ∃ a1 f size,
    DoExecute a = Returned tt a1
    ∧ m_TFFilter a1 = Some f
    ∧ tf_OutputSize f = Some size
    ∧ a' = logs (EvComputeTile <$> requested_regions a1 ((0, 0), size)) a1.
Proof.
  unfold ExecuteAndWriteOutput, bind. intros Hrun.
  destruct (DoExecute a) as [[] a1|e a1] eqn:Hexec; [|done].
  destruct (m_TFFilter a1) as [f|] eqn:Hf.
  2: { rewrite WriteOutput_throws in Hrun by (by rewrite Hf). done. }
  destruct (tf_OutputSize f) as [size|] eqn:Hsize.
  2: { rewrite WriteOutput_throws in Hrun by (by rewrite Hf). done. }
  rewrite (WriteOutput_run a1 f size) in Hrun by done. injection Hrun as <-.
  by exists a1, f, size.
Qed.

End Outcomes.

(** ** The calls of an execution *)

Lemma select_app (kind : Event → bool) (l1 l2 : list Event) :
  select kind (l1 ++ l2) = select kind l1 ++ select kind l2.
Proof. apply List.filter_app. Qed.

Lemma select_none (kind : Event → bool) (l : list Event) :
  (∀ e, e ∈ l → kind e = false) → select kind l = [].
Proof.
  induction l as [|e l IH]; intros Hl; [done|]. simpl.
  rewrite (Hl e) by left. apply IH. intros e' He'. apply Hl. by right.
Qed.

Lemma select_all (kind : Event → bool) (l : list Event) :
  (∀ e, e ∈ l → kind e = true) → select kind l = l.
Proof.
  induction l as [|e l IH]; intros Hl; [done|]. simpl.
  rewrite (Hl e) by left. f_equal. apply IH. intros e' He'. apply Hl. by right.
Qed.

Lemma count_app (kind : Event → bool) (l1 l2 : list Event) :
  count kind (l1 ++ l2) = (count kind l1 + count kind l2)%nat.
Proof. unfold count. by rewrite select_app, length_app. Qed.

Lemma count_none (kind : Event → bool) (l : list Event) :
  (∀ e, e ∈ l → kind e = false) → count kind l = 0%nat.
Proof. intros Hl. unfold count. by rewrite select_none. Qed.

Lemma all_before_none (early late : Event → bool) (l : list Event) :
  (∀ e, e ∈ l → late e = false) → all_before early late l = true.
Proof.
  induction l as [|e l IH]; intros Hl; [done|]. simpl.
  rewrite (Hl e) by left. apply IH. intros e' He'. apply Hl. by right.
Qed.

Lemma forallb_not (kind : Event → bool) (l : list Event) :
  (∀ e, e ∈ l → kind e = false) → forallb (fun e => negb (kind e)) l = true.
Proof.
  intros Hl. apply forallb_forall. intros e He%list_elem_of_In. by rewrite Hl.
Qed.

(** When no event of the first part is late and no event of the second
    part is early, every early event comes before every late event. *)
Lemma all_before_app (early late : Event → bool) (l1 l2 : list Event) :
  (∀ e, e ∈ l1 → late e = false) →
  (∀ e, e ∈ l2 → early e = false) →
  all_before early late (l1 ++ l2) = true.
Proof.
  intros H1 H2. induction l1 as [|e l1 IH]; simpl.
  - induction l2 as [|e l2 IH]; [done|]. simpl. rewrite IH.
    + rewrite forallb_not; [by destruct (late e)|]. intros e' He'. apply H2. by right.
    + intros e' He'. apply H2. by right.
  - rewrite (H1 e) by left. apply IH. intros e' He'. apply H1. by right.
Qed.

Ltac elem_cases :=
  repeat match goal with
         | H : _ ∨ _ |- _ => destruct H as [H|H]
         | H : ∃ _, _ |- _ => destruct H as [? H]
         | H : _ ∧ _ |- _ => destruct H as [? H]
         | H : ?x = _ |- _ => is_var x; subst x
         end;
  try done; auto.

Lemma execute_events_calls (t : gmap string ParameterDecl)
    (bundles : list ProcessObjectsBundle) (tail : list Event) (e : Event) :
  (∀ e, e ∈ tail → is_execute_call e = true) →
  e ∈ execute_events t bundles tail → is_execute_call e = true.
Proof.
  intros Htail. unfold execute_events, load_events, setup_events, parse_events,
    wiring_events, prepare_events, push_event.
  intros He. set_unfold in He.
  destruct (ParameterInt "model.fullyconv" t =? 1); set_unfold in He; elem_cases.
Qed.

Lemma execute_events_load (t : gmap string ParameterDecl)
    (bundles : list ProcessObjectsBundle) (tail : list Event) :
  execute_events t bundles tail
  = load_events t
    ++ (setup_events bundles
        ++ parse_events (ParameterStringList "model.userplaceholders" t)
        ++ wiring_events t bundles ++ tail).
Proof. reflexivity. Qed.

Section Traces.
Context `{!Collaborators}.

(** Whatever its outcome, [DoExecute] starts by reading the directory of
    the model and loading the model, and makes no other calls than those of
    the execution. *)
Lemma DoExecute_final (a : App) :
  ∃ events,
    trace (final (DoExecute a)) = trace a ++ load_events (parameters a) ++ events
    ∧ (∀ e, e ∈ events → is_execute_call e = true)
    ∧ length (m_Bundles (final (DoExecute a))) = length (m_Bundles a).
Proof.
  destruct (tf_LoadModel (ParameterAsString "model.dir" (parameters a)))
    as [model|] eqn:Hload.
  2: { exists []. rewrite DoExecute_load_fails by done. unfold final, logs.
       cbn [trace m_Bundles].
       rewrite app_nil_r. split_and!; [done| |done]. by intros e ?%elem_of_nil. }
  destruct (parse_all (ParameterStringList "model.userplaceholders" (parameters a)))
    as [dict|] eqn:Hparse.
  2: { destruct (DoExecute_parse_fails a model Hload Hparse)
         as (done & e & rest & f & _ & _ & _ & ->).
       unfold final, interrupted. cbn [trace m_Bundles]. rewrite length_fmap.
       eexists. split_and!; [reflexivity| |done].
       intros e'. unfold setup_events, parse_events, prepare_events.
       intros He. set_unfold in He. elem_cases. }
  assert (∀ tail, (∀ e, e ∈ tail → is_execute_call e = true) →
            ∀ e, e ∈ setup_events (m_Bundles a)
                     ++ parse_events (ParameterStringList "model.userplaceholders"
                                        (parameters a))
                     ++ wiring_events (parameters a) (m_Bundles a) ++ tail →
                 is_execute_call e = true) as Hcalls.
  { intros tail Htail e He. apply (execute_events_calls (parameters a) (m_Bundles a) tail);
      [done|]. rewrite execute_events_load. apply elem_of_app. by right. }
  destruct (decide (ParameterInt "finetuning.disabletiling" (parameters a) = 1))
    as [Htiling|Htiling].
  { rewrite (DoExecute_untiled a model dict) by done.
    unfold final, executed. cbn [trace m_Bundles]. rewrite length_fmap.
    eexists. split_and!; [by rewrite execute_events_load| |done].
    apply Hcalls. intros e He. unfold untiled_events in He. set_unfold in He. elem_cases. }
  destruct (tf_OutputSize (configured_filter (parameters a) (m_Bundles a) model dict))
    as [size|] eqn:Hsize.
  2: { rewrite (DoExecute_output_information_fails a model dict) by done.
       unfold final, interrupted. cbn [trace m_Bundles]. rewrite length_fmap.
       eexists. split_and!; [by rewrite execute_events_load| |done].
       apply Hcalls. intros e He. set_unfold in He. elem_cases. }
  destruct (nbDesiredTiles (GetNumberOfPixels size)
              (to_uint (ParameterInt "finetuning.tilesize" (parameters a))))
    as [nb|] eqn:Hnb.
  2: { rewrite (DoExecute_conversion_undefined a model dict size) by done.
       unfold final, interrupted. cbn [trace m_Bundles]. rewrite length_fmap.
       eexists. split_and!; [by rewrite execute_events_load| |done].
       apply Hcalls. intros e He. set_unfold in He. elem_cases. }
  rewrite (DoExecute_tiled a model dict size nb) by done.
  unfold final, executed. cbn [trace m_Bundles]. rewrite length_fmap.
  eexists. split_and!; [by rewrite execute_events_load| |done].
  apply Hcalls. intros e He. unfold tiled_events in He. set_unfold in He. elem_cases.
Qed.

(** The same for a whole run, which in addition computes tiles. *)
Lemma run_final (a : App) :
  ∃ events,
    trace (final (ExecuteAndWriteOutput a))
    = trace a ++ load_events (parameters a) ++ events
    ∧ (∀ e, e ∈ events → is_execute_call e = true ∨ is_ComputeTile e = true)
    ∧ length (m_Bundles (final (ExecuteAndWriteOutput a))) = length (m_Bundles a).
Proof.
  destruct (DoExecute_final a) as (events & Htrace & Hcalls & Hlen).
  unfold ExecuteAndWriteOutput, bind.
  destruct (DoExecute a) as [[] a1|e a1] eqn:Hexec; cbn [final] in Htrace, Hlen |- *.
  2: { exists events. split_and!; [done| |done]. intros e' He'. left. by apply Hcalls. }
  destruct (option_bind _ _ tf_OutputSize (m_TFFilter a1)) as [size|] eqn:Hsize.
  2: { rewrite WriteOutput_throws by done. exists events. split_and!; [done| |done].
       intros e' He'. left. by apply Hcalls. }
  destruct (m_TFFilter a1) as [f|] eqn:Hf; [|done]. cbn [option_bind] in Hsize.
  rewrite (WriteOutput_run a1 f size) by done. unfold logs. cbn [trace m_Bundles].
  exists (events ++ (EvComputeTile <$> requested_regions a1 ((0, 0), size))).
  split_and!; [by rewrite Htrace, <- !app_assoc| |done].
  intros e' [He'|He']%elem_of_app; [left; by apply Hcalls|right].
  apply list_elem_of_fmap in He' as (tile & -> & _). done.
Qed.

(** C9.  Whatever the outcome of a run, its first calls are the read of
    the directory of the model and the loading of the model: every other
    call (the preparation of the sources, the configuration of the filter,
    the computation of tiles) comes after them.  When the loading fails,
    the run ends there with the exception of the loading: the sources are
    not prepared, no filter is created, no output image is registered and no
    tile is computed. *)
Theorem model_loading_first (a : App) :
  let dir := ParameterAsString "model.dir" (parameters a) in
  (∃ rest,
     trace (final (ExecuteAndWriteOutput a))
     = trace a ++ EvGetParameter "model.dir" :: EvLoadModel dir :: rest)
  ∧ (tf_LoadModel dir = None →
     ∃ a',
       ExecuteAndWriteOutput a = Thrown (LoadError dir) a'
       ∧ trace a' = trace a ++ [EvGetParameter "model.dir"; EvLoadModel dir]
       ∧ m_Bundles a' = m_Bundles a
       ∧ m_TFFilter a' = m_TFFilter a
       ∧ m_StreamFilter a' = m_StreamFilter a
       ∧ output_images a' = output_images a
       ∧ count is_ComputeTile [EvGetParameter "model.dir"; EvLoadModel dir] = 0%nat).
Proof.
  intros dir. split.
  - destruct (run_final a) as (events & -> & _ & _). by exists events.
  - intros Hload. eexists. split_and!.
    + unfold ExecuteAndWriteOutput, bind. by rewrite DoExecute_load_fails.
    + done.
    + done.
    + done.
    + done.
    + done.
    + done.
Qed.

End Traces.

(** ** The streaming *)

Ltac events_cases He :=
  unfold execute_events, load_events, setup_events, parse_events, wiring_events,
    prepare_events, push_event, untiled_events, tiled_events in He;
  set_unfold in He;
  match type of He with
  | context [ParameterInt "model.fullyconv" ?t =? 1] =>
      destruct (ParameterInt "model.fullyconv" t =? 1); set_unfold in He
  | _ => idtac
  end;
  elem_cases.

Lemma ParameterInt_bool (key : string) (t : gmap string ParameterDecl) (b : bool) :
  parameter_value key t = VBool b →
  ParameterInt key t = if b then 1 else 0.
Proof. intros Hv. unfold ParameterInt. by rewrite Hv. Qed.

Section Streaming.
Context `{!Collaborators}.

(** C3.  When [finetuning.disabletiling] is true (and the model loads and
    the expressions are well formed), [DoExecute] returns without creating
    a tile splitter or a streaming filter: [m_StreamFilter] is left as it
    was, and the image registered under ["out"] is the output of the
    inference filter itself.  A request of the sink for a region then reaches
    the filter as that one region, and a run computes the whole output
    region in one call. *)
Theorem disabled_tiling_bypasses_streaming (a : App) (model : SavedModelBundle)
    (dict : DictListType) :
  parameter_value "finetuning.disabletiling" (parameters a) = VBool true →
  tf_LoadModel (ParameterAsString "model.dir" (parameters a)) = Some model →
  parse_all (ParameterStringList "model.userplaceholders" (parameters a)) = Some dict →
  ∃ a' events,
    DoExecute a = Returned tt a'
    ∧ trace a' = trace a ++ events
    ∧ count is_SplitterNew events = 0%nat
    ∧ count is_StreamingFilterNew events = 0%nat
    ∧ m_StreamFilter a' = m_StreamFilter a
    ∧ output_images a' !! "out" = Some TFFilter_Output
    ∧ (∀ whole, requested_regions a' whole = [whole])
    ∧ (∀ f size, m_TFFilter a' = Some f → tf_OutputSize f = Some size →
         ExecuteAndWriteOutput a
         = Returned tt (logs [EvComputeTile ((0, 0), size)] a')).
Proof.
  intros Hvalue Hload Hparse.
  assert (ParameterInt "finetuning.disabletiling" (parameters a) = 1) as Htiling
    by by rewrite (ParameterInt_bool _ _ true).
  pose proof (DoExecute_untiled a model dict Hload Hparse Htiling) as Hexec.
  eexists _, _. split; [exact Hexec|].
  assert (∀ whole,
    requested_regions
      (executed a model dict (m_StreamFilter a) TFFilter_Output untiled_events) whole
    = [whole]) as Hregions.
  { intros whole. unfold requested_regions, executed. cbn [output_images].
    by rewrite lookup_insert_eq. }
  split_and!.
  - reflexivity.
  - apply count_none. intros e He. events_cases He.
  - apply count_none. intros e He. events_cases He.
  - reflexivity.
  - unfold executed. cbn [output_images]. by rewrite lookup_insert_eq.
  - exact Hregions.
  - intros f size Hf Hsize. unfold ExecuteAndWriteOutput, bind. rewrite Hexec.
    rewrite (WriteOutput_run _ f size) by done. by rewrite Hregions.
Qed.

End Streaming.

(** ** The bands of the output *)

Lemma tensor_bands_length (channels : string → nat) (name : string) :
  length (tensor_bands channels name) = channels name.
Proof. unfold tensor_bands. by rewrite length_fmap, length_seq. Qed.

Lemma bands_length (channels : string → nat) (names : list string) :
  length (names ≫= tensor_bands channels) = sum_list (channels <$> names).
Proof.
  induction names as [|name names IH]; [done|].
  cbn. rewrite length_app, tensor_bands_length. by rewrite IH.
Qed.

(** The bands of the [i]-th name are contiguous and start after the bands
    of the names before it. *)
Lemma bands_lookup (channels : string → nat) (names : list string)
    (i : nat) (name : string) (c : nat) :
  names !! i = Some name → (c < channels name)%nat →
  (names ≫= tensor_bands channels) !! (band_offset channels names i + c)%nat
  = Some (name, c).
Proof.
  intros Hi Hc. unfold band_offset.
  replace (names ≫= tensor_bands channels)
    with ((take i names ++ name :: drop (S i) names) ≫= tensor_bands channels)
    by (by rewrite take_drop_middle).
  rewrite bind_app, bind_cons.
  rewrite lookup_app_r by (rewrite bands_length; lia).
  rewrite bands_length.
  replace (sum_list (channels <$> take i names) + c
           - sum_list (channels <$> take i names))%nat with c by lia.
  rewrite lookup_app_l by (by rewrite tensor_bands_length).
  unfold tensor_bands. rewrite list_lookup_fmap, lookup_seq_lt by done. done.
Qed.

(** ** The tiles of a run *)

Lemma count_cons (kind : Event → bool) (e : Event) (l : list Event) :
  count kind (e :: l) = ((if kind e then 1 else 0) + count kind l)%nat.
Proof. unfold count, select. simpl. by destruct (kind e). Qed.

Lemma select_execute_events (kind : Event → bool) (t : gmap string ParameterDecl)
    (bundles : list ProcessObjectsBundle) (tail : list Event) :
  select kind (execute_events t bundles tail)
  = select kind (load_events t) ++ select kind (setup_events bundles)
    ++ select kind (parse_events (ParameterStringList "model.userplaceholders" t))
    ++ select kind (wiring_events t bundles) ++ select kind tail.
Proof. unfold execute_events. by rewrite !select_app. Qed.

Section Tiles.
Context `{!Collaborators}.

Lemma requested_regions_logs (es : list Event) (a : App) (whole : Region) :
  requested_regions (logs es a) whole = requested_regions a whole.
Proof. reflexivity. Qed.

Lemma tile_computations_logs (es : list Event) (a : App) :
  tile_computations (logs es a) = tile_computations a.
Proof. reflexivity. Qed.

Lemma tile_computations_inv (a : App) (f : TFModelFilter) (tc : TileComputation) :
  m_TFFilter a = Some f → tc ∈ tile_computations a → ∃ tile, tc = computeTile f tile.
Proof.
  intros Hf. unfold tile_computations. rewrite Hf.
  destruct (tf_OutputSize f); [|by intros ?%elem_of_nil].
  intros (tile & -> & _)%list_elem_of_fmap. by exists tile.
Qed.

Lemma tile_computations_regions (a : App) (f : TFModelFilter) (size : SizeType) :
  m_TFFilter a = Some f → tf_OutputSize f = Some size →
  tile_region <$> tile_computations a = requested_regions a ((0, 0), size).
Proof.
  intros Hf Hsize. unfold tile_computations. rewrite Hf, Hsize.
  rewrite <- list_fmap_compose. apply list_fmap_id.
Qed.

(** A run that returns, in terms of what was read from the parameters. *)
Lemma run_returns_executed (a a' : App) :
  ExecuteAndWriteOutput a = Returned tt a' →
  ∃ model dict stream out tail size,
    tf_LoadModel (ParameterAsString "model.dir" (parameters a)) = Some model
    ∧ parse_all (ParameterStringList "model.userplaceholders" (parameters a)) = Some dict
    ∧ streaming_choice a model dict stream out tail
    ∧ tf_OutputSize (configured_filter (parameters a) (m_Bundles a) model dict) = Some size
    ∧ a' = logs (EvComputeTile <$>
                   requested_regions (executed a model dict stream out tail) ((0, 0), size))
                (executed a model dict stream out tail).
Proof.
  intros (a1 & f & size & Hexec & Hf & Hsize & ->)%run_returns_inv.
  apply DoExecute_returns_inv in Hexec
    as (model & dict & stream & out & tail & Hload & Hparse & Hchoice & ->).
  cbn [executed m_TFFilter] in Hf. injection Hf as <-.
  by exists model, dict, stream, out, tail, size.
Qed.

Lemma streaming_choice_tail (a : App) (model : SavedModelBundle) (dict : DictListType)
    (stream : option StreamingFilter) (out : ImageRef) (tail : list Event) :
  streaming_choice a model dict stream out tail →
  tail = untiled_events ∨ tail = tiled_events.
Proof. intros [|]; auto. Qed.

End Tiles.

Lemma parse_all_Forall2 `{!Collaborators} (expressions : list string) (dict : DictListType) :
  parse_all expressions = Some dict →
  Forall2 (fun exp entry => tf_ExpressionToTensor exp = Some entry) expressions dict.
Proof.
  revert dict. induction expressions as [|e rest IH]; intros dict Hp; simpl in Hp.
  - simplify_eq. constructor.
  - destruct (tf_ExpressionToTensor e) as [entry|] eqn:He; [|done].
    destruct (parse_all rest) as [d|]; [|done]. simpl in Hp. simplify_eq.
    constructor; [done|by apply IH].
Qed.

Section Bands.
Context `{!Collaborators}.

(** C4.  After a [DoExecute] that returns, the names of the output
    tensors of the inference filter are the list of [output.names], unchanged
    and in the same order, and every tile is computed for these names.  The
    bands of the output are then the channels of the first name, followed by
    the channels of the second name, and so on: the band count is the sum of
    the channel counts, and the channel [c] of the [i]-th name is the band
    number [band_offset + c], where [band_offset] is the number of channels
    of the names before it. *)
Theorem output_bands_follow_names (a a' : App) (channels : string → nat) :
  DoExecute a = Returned tt a' →
  let names := ParameterStringList "output.names" (parameters a) in
  ∃ f,
    m_TFFilter a' = Some f
    ∧ f_OutputTensorsNames f = names
    ∧ (∀ tc, tc ∈ tile_computations a' → tile_output_names tc = names)
    ∧ output_bands channels f = names ≫= tensor_bands channels
    ∧ length (output_bands channels f) = sum_list (channels <$> names)
    ∧ (∀ i name c,
         names !! i = Some name → (c < channels name)%nat →
         output_bands channels f !! (band_offset channels names i + c)%nat
         = Some (name, c)).
Proof.
  intros (model & dict & stream & out & tail & _ & _ & _ & ->)%DoExecute_returns_inv names.
  eexists. split; [reflexivity|]. split_and!.
  - reflexivity.
  - intros tc Htc.
    apply (tile_computations_inv _
             (configured_filter (parameters a) (m_Bundles a) model dict)) in Htc
      as [tile ->]; reflexivity.
  - reflexivity.
  - apply bands_length.
  - intros i name c Hi Hc. by apply bands_lookup.
Qed.

End Bands.

(** ** The user placeholders *)

Section Placeholders.
Context `{!Collaborators}.

(** C5.  In a run that returns, the dictionary of the user placeholders
    is the list of the values of the expressions of
    [model.userplaceholders], each parsed by one call of the parser, in the
    order of the list; the dictionary is installed on the filter by one call,
    after the parsing; every tile is computed with that dictionary as its
    constants; and the parsing and the installation come before the
    computation of any tile. *)
Theorem user_placeholders_parsed_once (a a' : App) :
  ExecuteAndWriteOutput a = Returned tt a' →
  let expressions := ParameterStringList "model.userplaceholders" (parameters a) in
  ∃ dict events,
    parse_all expressions = Some dict
    ∧ Forall2 (fun exp entry => tf_ExpressionToTensor exp = Some entry) expressions dict
    ∧ (∃ f, m_TFFilter a' = Some f ∧ f_UserPlaceholders f = dict)
    ∧ (∀ tc, tc ∈ tile_computations a' → tile_constants tc = dict)
    ∧ trace a' = trace a ++ events
    ∧ select is_ComputeTile events
      = EvComputeTile <$> (tile_region <$> tile_computations a')
    ∧ select is_ExpressionToTensor events = EvExpressionToTensor <$> expressions
    ∧ count is_SetUserPlaceholders events = 1%nat
    ∧ all_before is_ExpressionToTensor is_SetUserPlaceholders events = true
    ∧ all_before is_ExpressionToTensor is_ComputeTile events = true
    ∧ all_before is_SetUserPlaceholders is_ComputeTile events = true.
Proof.
  intros (model & dict & stream & out & tail & size & Hload & Hparse & Hchoice & Hsize & ->)
    %run_returns_executed expressions.
  apply streaming_choice_tail in Hchoice.
  set (a1 := executed a model dict stream out tail).
  set (tiles := requested_regions a1 ((0, 0), size)).
  assert (∀ e, e ∈ execute_events (parameters a) (m_Bundles a) tail →
               is_ComputeTile e = false) as Hexec.
  { intros e He. destruct Hchoice as [-> | ->]; events_cases He. }
  assert (∀ e, e ∈ EvComputeTile <$> tiles →
               is_ExpressionToTensor e = false ∧ is_SetUserPlaceholders e = false) as Htiles.
  { by intros e (tile & -> & _)%list_elem_of_fmap. }
  exists dict, (execute_events (parameters a) (m_Bundles a) tail ++ (EvComputeTile <$> tiles)).
  split_and!.
  - done.
  - by apply parse_all_Forall2.
  - by eexists.
  - intros tc Htc.
    apply (tile_computations_inv _
             (configured_filter (parameters a) (m_Bundles a) model dict)) in Htc
      as [tile ->]; reflexivity.
  - unfold logs, a1, executed. cbn [trace]. by rewrite <- app_assoc.
  - rewrite tile_computations_logs.
    rewrite (tile_computations_regions a1 _ size eq_refl Hsize).
    rewrite select_app, select_none by done.
    rewrite select_all; [done|]. by intros e (tile & -> & _)%list_elem_of_fmap.
  - rewrite select_app, (select_none _ (_ <$> tiles)) by (intros; by apply Htiles).
    rewrite app_nil_r, select_execute_events.
    rewrite (select_none _ (load_events _)) by (intros e He; events_cases He).
    rewrite (select_none _ (setup_events _)) by (intros e He; events_cases He).
    rewrite (select_none _ (wiring_events _ _)) by (intros e He; events_cases He).
    rewrite (select_none _ tail)
      by (intros e He; destruct Hchoice as [-> | ->]; events_cases He).
    rewrite select_all; [by rewrite app_nil_r|].
    by intros e (exp & -> & _)%list_elem_of_fmap.
  - rewrite count_app, (count_none _ (_ <$> tiles)) by (intros; by apply Htiles).
    unfold execute_events. rewrite !count_app.
    rewrite (count_none _ (load_events _)) by (intros e He; events_cases He).
    rewrite (count_none _ (setup_events _)) by (intros e He; events_cases He).
    rewrite (count_none _ (parse_events _)) by (intros e He; events_cases He).
    rewrite (count_none _ tail)
      by (intros e He; destruct Hchoice as [-> | ->]; events_cases He).
    unfold wiring_events. rewrite count_cons. cbn [is_SetUserPlaceholders].
    rewrite count_none; [done|]. intros e He. events_cases He.
  - unfold execute_events. rewrite !app_assoc, <- (app_assoc _ (wiring_events _ _)).
    rewrite <- (app_assoc _ (wiring_events _ _ ++ tail)).
    apply all_before_app.
    + intros e He. events_cases He.
    + intros e [He|He]%elem_of_app; [|by apply Htiles].
      destruct Hchoice as [-> | ->]; events_cases He.
  - apply all_before_app; [done|]. intros; by apply Htiles.
  - apply all_before_app; [done|]. intros; by apply Htiles.
Qed.

End Placeholders.

(** ** The sources of a configured application *)

Lemma source_key_eqb (i : nat) (s key : string) :
  (∀ r, key ≠ String "s" r) → String.eqb (source_key i s) key = false.
Proof.
  intros Hkey. apply String.eqb_neq. intros E.
  destruct (source_key_head i s) as [r Hr]. rewrite Hr in E. by apply (Hkey r).
Qed.

Lemma select_cons (kind : Event → bool) (e : Event) (l : list Event) :
  select kind (e :: l) = if kind e then e :: select kind l else select kind l.
Proof. reflexivity. Qed.

Section Sources.
Context `{!Collaborators}.

Lemma configured_bundles (settings : list (string * Value)) :
  m_Bundles (configured settings) = declared_bundle <$> seq 1 number_of_sources.
Proof.
  unfold configured. destruct (configure_fields settings (DoInit App_New)) as (-> & _).
  apply DoInit_bundles.
Qed.

Lemma configured_trace (settings : list (string * Value)) :
  trace (configured settings) = trace (DoInit App_New).
Proof.
  unfold configured. by destruct (configure_fields settings (DoInit App_New)) as (_ & -> & _).
Qed.

(** The reads [PrepareInputs] makes for the declared sources are reads of
    keys of source groups. *)
Lemma declared_prepare_reads (key : string) (l : list nat) (e : Event) :
  (∀ r, key ≠ String "s" r) →
  e ∈ (declared_bundle <$> l) ≫= prepare_events → is_read_of key e = false.
Proof.
  intros Hkey He. apply list_elem_of_bind in He as (b & He & Hb).
  apply list_elem_of_fmap in Hb as (i & -> & _).
  unfold prepare_events, declared_bundle in He. cbn in He.
  set_unfold in He. elem_cases; cbn; by apply source_key_eqb.
Qed.

(** C10.  After a [DoExecute] that returns on an application declared
    by [DoInit], the inputs of the filter are, in this order, those of the
    sources 1 to N, where N is the number of declared sources; the input
    number [i] carries the placeholder, the field of view and the image list
    read from the keys [source(i).placeholder], [source(i).fovx],
    [source(i).fovy] and [source(i).il]; the calls that push them are made in
    the same order; and two keys of source groups are equal only for the
    same source and the same suffix. *)
Theorem bundles_in_declaration_order (settings : list (string * Value)) (a' : App) :
  let a := configured settings in
  let t := parameters a in
  DoExecute a = Returned tt a' →
  ∃ f events,
    m_TFFilter a' = Some f
    ∧ f_Inputs f = source_input t <$> seq 1 number_of_sources
    ∧ (∀ i, (i < number_of_sources)%nat → f_Inputs f !! i = Some (source_input t (S i)))
    ∧ length (f_Inputs f) = number_of_sources
    ∧ trace a' = trace a ++ events
    ∧ select is_PushBackInputBundle events
      = (fun i => EvPushBackInputBundle (in_placeholder (source_input t i)))
        <$> seq 1 number_of_sources
    ∧ (∀ i j s s',
         s = "" ∨ starts_with_dot s = true → s' = "" ∨ starts_with_dot s' = true →
         source_key i s = source_key j s' → i = j ∧ s = s').
Proof.
  intros a t (model & dict & stream & out & tail & _ & _ & Hchoice & ->)%DoExecute_returns_inv.
  apply streaming_choice_tail in Hchoice.
  assert (f_Inputs (configured_filter t (m_Bundles a) model dict)
          = source_input t <$> seq 1 number_of_sources) as Hinputs.
  { unfold configured_filter. cbn [f_Inputs]. unfold a. rewrite configured_bundles.
    rewrite <- !list_fmap_compose. by apply list_fmap_ext. }
  exists (configured_filter t (m_Bundles a) model dict),
         (execute_events t (m_Bundles a) tail).
  split; [reflexivity|]. split_and!.
  - exact Hinputs.
  - intros i Hi. rewrite Hinputs, list_lookup_fmap, lookup_seq_lt by done. done.
  - by rewrite Hinputs, length_fmap, length_seq.
  - reflexivity.
  - rewrite select_execute_events.
    rewrite (select_none _ (load_events _)) by (intros e He; events_cases He).
    rewrite (select_none _ (setup_events _)) by (intros e He; events_cases He).
    rewrite (select_none _ (parse_events _)) by (intros e He; events_cases He).
    rewrite (select_none _ tail)
      by (intros e He; destruct Hchoice as [-> | ->]; events_cases He).
    unfold wiring_events. rewrite select_cons. cbn [is_PushBackInputBundle].
    rewrite select_app, select_all by (intros e He; events_cases He).
    rewrite select_none, !app_nil_r by (intros e He; events_cases He).
    fold t. unfold a. rewrite configured_bundles.
    rewrite <- !list_fmap_compose. by apply list_fmap_ext.
  - apply source_key_inj.
Qed.

(** C8.  On an application declared by [DoInit] whose parameter
    [model.fullyconv] holds the boolean [b], a run that returns leaves the
    filter in the fully convolutional mode when [b] is true and in the
    patch-wise mode otherwise; every tile is computed in that mode; the
    parameter is read once, [SetFullyConvolutional] is called once when [b]
    is true and not at all otherwise, and both come before the computation of
    any tile. *)
Theorem execution_mode_selected_once (settings : list (string * Value)) (a' : App)
    (b : bool) :
  let a := configured settings in
  parameter_value "model.fullyconv" (parameters a) = VBool b →
  ExecuteAndWriteOutput a = Returned tt a' →
  ∃ f events,
    m_TFFilter a' = Some f
    ∧ execution_mode f = (if b then FullyConvolutional else PatchWise)
    ∧ (execution_mode f = FullyConvolutional ↔ b = true)
    ∧ (∀ tc, tc ∈ tile_computations a' → tile_mode tc = execution_mode f)
    ∧ trace a' = trace a ++ events
    ∧ count (is_read_of "model.fullyconv") events = 1%nat
    ∧ count is_SetFullyConvolutional events = (if b then 1 else 0)%nat
    ∧ all_before (is_read_of "model.fullyconv") is_ComputeTile events = true
    ∧ all_before is_SetFullyConvolutional is_ComputeTile events = true.
Proof.
  intros a Hvalue
    (model & dict & stream & out & tail & size & Hload & Hparse & Hchoice & Hsize & ->)
    %run_returns_executed.
  apply streaming_choice_tail in Hchoice.
  set (a1 := executed a model dict stream out tail).
  set (tiles := requested_regions a1 ((0, 0), size)).
  assert ((ParameterInt "model.fullyconv" (parameters a) =? 1) = b) as Hfc.
  { rewrite (ParameterInt_bool _ _ b) by done. by destruct b. }
  assert (∀ e, e ∈ execute_events (parameters a) (m_Bundles a) tail →
               is_ComputeTile e = false) as Hexec.
  { intros e He. destruct Hchoice as [-> | ->]; events_cases He. }
  assert (∀ e, e ∈ EvComputeTile <$> tiles →
               is_read_of "model.fullyconv" e = false
               ∧ is_SetFullyConvolutional e = false) as Htiles.
  { by intros e (tile & -> & _)%list_elem_of_fmap. }
  assert (execution_mode (configured_filter (parameters a) (m_Bundles a) model dict)
          = if b then FullyConvolutional else PatchWise) as Hmode.
  { unfold execution_mode, configured_filter. cbn [f_FullyConvolutional]. by rewrite Hfc. }
  exists (configured_filter (parameters a) (m_Bundles a) model dict),
         (execute_events (parameters a) (m_Bundles a) tail ++ (EvComputeTile <$> tiles)).
  split_and!.
  - reflexivity.
  - exact Hmode.
  - rewrite Hmode. by destruct b.
  - intros tc Htc.
    apply (tile_computations_inv _
             (configured_filter (parameters a) (m_Bundles a) model dict)) in Htc
      as [tile ->]; reflexivity.
  - unfold logs, a1, executed. cbn [trace]. by rewrite <- app_assoc.
  - rewrite count_app, (count_none _ (_ <$> tiles)) by (intros; by apply Htiles).
    unfold execute_events. rewrite !count_app.
    rewrite (count_none _ (load_events _)) by (intros e He; events_cases He).
    rewrite (count_none _ (parse_events _)) by (intros e He; events_cases He).
    rewrite (count_none _ tail)
      by (intros e He; destruct Hchoice as [-> | ->]; events_cases He).
    rewrite (count_none _ (setup_events _)).
    2: { intros e [He|He]%elem_of_app; [|events_cases He].
         unfold a in He. rewrite configured_bundles in He.
         by apply (declared_prepare_reads "model.fullyconv" (seq 1 number_of_sources) e). }
    unfold wiring_events. rewrite count_cons, count_app, count_cons.
    rewrite (count_none _ (push_event <$> _)) by (intros e He; events_cases He).
    rewrite count_none; [done|]. rewrite Hfc. intros e He. destruct b; events_cases He.
  - rewrite count_app, (count_none _ (_ <$> tiles)) by (intros; by apply Htiles).
    unfold execute_events. rewrite !count_app.
    rewrite (count_none _ (load_events _)) by (intros e He; events_cases He).
    rewrite (count_none _ (parse_events _)) by (intros e He; events_cases He).
    rewrite (count_none _ (setup_events _)) by (intros e He; events_cases He).
    rewrite (count_none _ tail)
      by (intros e He; destruct Hchoice as [-> | ->]; events_cases He).
    unfold wiring_events. rewrite count_cons, count_app, count_cons, count_app.
    rewrite (count_none _ (push_event <$> _)) by (intros e He; events_cases He).
    rewrite Hfc. by destruct b.
  - apply all_before_app; [done|]. intros; by apply Htiles.
  - apply all_before_app; [done|]. intros; by apply Htiles.
Qed.

End Sources.

(** ** The number of sources *)

Lemma loop_events_count (first k : nat) :
  count is_GetNumberOfSources (loop_events first k) = S k.
Proof.
  unfold loop_events. rewrite count_app. cbn [count select List.filter
    is_GetNumberOfSources length]. rewrite Nat.add_1_r. f_equal.
  revert first. induction k as [|k IH]; intros first; [done|].
  cbn [seq]. rewrite bind_cons, count_app, IH, count_cons. cbn [is_GetNumberOfSources].
  by rewrite count_none by (by intros e He; unfold declared_events in He;
                              set_unfold in He; elem_cases).
Qed.

Section NumberOfSources.
Context `{!Collaborators}.

(** C6, as the code has it.  The number of sources is fixed by
    [DoInit]: it is the external count, or 1 when the count is below 1; the
    values the user gives to the parameters and a run, whatever its outcome,
    leave it as it is.  [DoInit] declares the group of the first source
    before it reads the count, then reads the count at every test of the
    loop that declares the other sources: as many reads as there are
    sources.  A run does not read the count. *)
Theorem sources_fixed_by_DoInit (settings : list (string * Value)) :
  let a := configured settings in
  length (m_Bundles (DoInit App_New)) = number_of_sources
  ∧ Z.of_nat number_of_sources = Z.max 1 tf_GetNumberOfSources
  ∧ (1 ≤ number_of_sources)%nat
  ∧ length (m_Bundles a) = number_of_sources
  ∧ length (m_Bundles (final (ExecuteAndWriteOutput a))) = number_of_sources
  ∧ trace (DoInit App_New)
    = declared_events 1 ++ loop_events 2 (number_of_sources - 1) ++ static_events
  ∧ count is_GetNumberOfSources (trace (DoInit App_New)) = number_of_sources
  ∧ count is_GetNumberOfSources (trace (final (ExecuteAndWriteOutput a)))
    = number_of_sources.
Proof.
  intros a.
  assert (count is_GetNumberOfSources (trace (DoInit App_New)) = number_of_sources)
    as Hreads.
  { rewrite DoInit_trace, !count_app, loop_events_count.
    unfold number_of_sources. cbn. lia. }
  destruct (run_final a) as (events & Htrace & Hcalls & Hlen).
  split_and!.
  - by rewrite DoInit_bundles, length_fmap, length_seq.
  - apply number_of_sources_max.
  - unfold number_of_sources. lia.
  - unfold a. by rewrite configured_bundles, length_fmap, length_seq.
  - rewrite Hlen. unfold a. by rewrite configured_bundles, length_fmap, length_seq.
  - rewrite DoInit_trace. unfold number_of_sources. by rewrite Nat.sub_1_r.
  - exact Hreads.
  - rewrite Htrace, !count_app. unfold a at 1. rewrite configured_trace, Hreads.
    rewrite (count_none _ events).
    2: { intros e [He|He]%Hcalls; by destruct e. }
    cbn. unfold number_of_sources. lia.
Qed.

End NumberOfSources.

(** ** The filter and the tiling switch *)

Lemma parameter_value_other (key k : string) (v : Value) (t : gmap string ParameterDecl) :
  k ≠ key → parameter_value key (alter (with_value v) k t) = parameter_value key t.
Proof. intros Hne. unfold parameter_value. by rewrite lookup_alter_ne. Qed.

Section Switch.
Context `{!Collaborators}.

(** The inference filter that [DoExecute] configures does not depend on the
    value of [finetuning.disabletiling]: with or without tiling, the output
    is computed by the same filter, configured in the same way. *)
Lemma filter_independent_of_tiling (settings : list (string * Value)) (v : Value)
    (a1' a2' : App) :
  let a1 := configured settings in
  let a2 := SetParameterValue "finetuning.disabletiling" v a1 in
  DoExecute a1 = Returned tt a1' → DoExecute a2 = Returned tt a2' →
  m_TFFilter a1' = m_TFFilter a2'.
Proof.
  intros a1 a2
    (model1 & dict1 & ? & ? & ? & Hload1 & Hparse1 & _ & ->)%DoExecute_returns_inv
    (model2 & dict2 & ? & ? & ? & Hload2 & Hparse2 & _ & ->)%DoExecute_returns_inv.
  assert (∀ key, "finetuning.disabletiling" ≠ key →
            parameter_value key (parameters a2) = parameter_value key (parameters a1))
    as Hother by (intros key Hkey; by apply parameter_value_other).
  unfold ParameterAsString, ParameterStringList in Hload2, Hparse2.
  rewrite Hother in Hload2, Hparse2 by done.
  fold (ParameterAsString "model.dir" (parameters a1)) in Hload2.
  fold (ParameterStringList "model.userplaceholders" (parameters a1)) in Hparse2.
  assert (model2 = model1) as -> by congruence.
  assert (dict2 = dict1) as -> by congruence.
  unfold executed. cbn [m_TFFilter]. f_equal.
  unfold configured_filter, ParameterStringList, ParameterFloat, ParameterInt.
  rewrite !Hother by done. f_equal.
  change (m_Bundles a2) with (m_Bundles a1).
  replace (m_Bundles a1) with (declared_bundle <$> seq 1 number_of_sources)
    by (symmetry; apply configured_bundles).
  rewrite <- !list_fmap_compose. apply list_fmap_ext.
  intros _ i _. cbn. unfold prepared_bundle, bundle_input, declared_bundle. cbn.
  unfold ParameterAsString, ParameterInt, ParameterImageList.
  assert (∀ s, "finetuning.disabletiling" ≠ source_key i s) as Hkey.
  { intros s E. destruct (source_key_head i s) as [r Hr]. by rewrite Hr in E. }
  by rewrite !Hother by apply Hkey.
Qed.

End Switch.

(** ** The number of stream divisions *)


(** *** The conversion of an integer to [double] *)






(** *** Rounding a quotient to 53 digits *)










(** *** The ceiling of the rounded quotient *)






(** Instances: every tile size up to 40 for every output of up to 300
    pixels, and a few large outputs. *)
Example nbDesiredTiles_small :
  forallb (fun t =>
    forallb (fun n => bool_decide (nbDesiredTiles n t = Some (ceil_div n (t * t))))
            (seqZ 0 301))
    (seqZ 1 40) = true.
Proof. vm_compute. reflexivity. Qed.

Example nbDesiredTiles_large :
  forallb (fun '(n, t) => bool_decide (nbDesiredTiles n t = Some (ceil_div n (t * t))))
    [(1000000, 16); (1000000, 256); (65536 * 65536, 256); (10980 * 10980, 64);
     (10980 * 10980, 65535); (2 ^ 53 - 1, 65535); (2 ^ 32 - 1, 1); (123456789012, 777)]
  = true.
Proof. vm_compute. reflexivity. Qed.

(** C2, at a tile size whose square does not fit in an [unsigned int].
    With a tile size of 65537 and an output of 1000 by 1000 pixels, the
    product [tileSize * tileSize] wraps around to 131073, and the application
    asks for 8 stream divisions; the smallest count of tiles of at most
    [65537 * 65537] pixels is 1. *)
Theorem tile_count_wraps_around :
  let a := example_app 1 (1000, 1000) "/tmp/my_saved_model/" false 65537 in
  uint_mul 65537 65537 = 131073
  ∧ nbDesiredTiles 1000000 65537 = Some 8
  ∧ ceil_div 1000000 (65537 * 65537) = 1
  ∧ ∃ a', @DoExecute (example 1 (1000, 1000)) a = Returned tt a'
          ∧ m_StreamFilter a' = Some (tiling_filter 65537 8).
Proof.
  intros a. split_and!; [vm_compute; reflexivity..|].
  eexists. split; vm_compute; reflexivity.
Qed.

(** At a tile size of 65536 the product wraps around to 0: the quotient is
    not a number an [unsigned int] can hold. *)
Example tile_count_undefined :
  uint_mul 65536 65536 = 0 ∧ nbDesiredTiles 1000000 65536 = None.
Proof. vm_compute. split; reflexivity. Qed.

(** ** The coercion of the placeholders on the example *)

Example parse_documentation_placeholders :
  @parse_all (example 1 (4, 3)) ["is_training=false"; "dropout=0.0"] = Some example_dict
  ∧ parse_placeholder "batch=32" = Some ("batch", TInt 32)
  ∧ parse_placeholder "rate=1e-3" = Some ("rate", TFloat "1e-3")
  ∧ parse_placeholder "is_training" = None
  ∧ parse_placeholder "batch=many" = None.
Proof. vm_compute. split_and!; reflexivity. Qed.

(** ** The properties on the examples *)

(** C6 as it is stated fails: with an external count of 2, [DoInit] reads
    the count twice, and the group of the first source is declared before
    the first read. *)
Lemma count_read_twice_after_first_group :
  let l := trace (@DoInit (example 2 (1000, 1000)) App_New) in
  count is_GetNumberOfSources l = 2%nat
  ∧ head l = Some (EvAddParameter "source1")
  ∧ ¬ count_read_once_before_groups l.
Proof.
  vm_compute. split_and!; [reflexivity..|]. intros [Hcount _]. discriminate Hcount.
Qed.

(** With the default count of 1 the count is read once, but still after
    the group of the first source has been declared. *)
Example count_read_after_first_group :
  let l := trace (@DoInit (example 1 (1000, 1000)) App_New) in
  count is_GetNumberOfSources l = 1%nat
  ∧ all_before is_GetNumberOfSources is_AddParameter l = false.
Proof. vm_compute. split; reflexivity. Qed.

Lemma declared_defaults_and_minimums_witness :
  ∃ p, parameters (@DoInit (example 2 (1000, 1000)) App_New) !! source_key 2 ".fovx" = Some p
       ∧ p_type p = ParameterType_Int ∧ p_minimum p = Some 1.
Proof.
  destruct (@declared_defaults_and_minimums (example 2 (1000, 1000))) as [Hsources _].
  destruct (Hsources 2%nat) as [Hfovx _].
  - unfold number_of_sources. cbn. lia.
  - exact Hfovx.
Defined.

Lemma model_loading_first_witness :
  let a := example_app 1 (4, 3) "/missing/" false 2 in
  ∃ a', @ExecuteAndWriteOutput (example 1 (4, 3)) a = Thrown (LoadError "/missing/") a'
        ∧ output_images a' = output_images a
        ∧ m_TFFilter a' = m_TFFilter a.
Proof.
  intros a.
  destruct (proj2 (@model_loading_first (example 1 (4, 3)) a))
    as (a' & Hrun & _ & _ & Hfilter & _ & Hout & _).
  - vm_compute. reflexivity.
  - exists a'. split_and!; [exact Hrun|exact Hout|exact Hfilter].
Defined.

Lemma disabled_tiling_bypasses_streaming_witness :
  let a := example_app 1 (4, 3) "/tmp/my_saved_model/" true 2 in
  ∃ a', @DoExecute (example 1 (4, 3)) a = Returned tt a'
        ∧ output_images a' !! "out" = Some TFFilter_Output
        ∧ m_StreamFilter a' = m_StreamFilter a
        ∧ @requested_regions (example 1 (4, 3)) a' ((0, 0), (4, 3)) = [((0, 0), (4, 3))].
Proof.
  intros a.
  destruct (@disabled_tiling_bypasses_streaming (example 1 (4, 3)) a
              example_model example_dict)
    as (a' & events & Hrun & _ & _ & _ & Hstream & Hout & Hregions & _).
  - vm_compute. reflexivity.
  - vm_compute. reflexivity.
  - vm_compute. reflexivity.
  - exists a'. split_and!; [exact Hrun|exact Hout|exact Hstream|apply Hregions].
Defined.

Lemma output_bands_follow_names_witness :
  let a := example_app 1 (4, 3) "/tmp/my_saved_model/" false 2 in
  let channels := fun name : string => if String.eqb name "out_proba1" then 3%nat else 1%nat in
  ∃ f, m_TFFilter (final (@DoExecute (example 1 (4, 3)) a)) = Some f
       ∧ output_bands channels f
         = [("out_predict1", 0); ("out_proba1", 0); ("out_proba1", 1); ("out_proba1", 2)]%nat.
Proof.
  intros a channels.
  destruct (@output_bands_follow_names (example 1 (4, 3)) a
              (final (@DoExecute (example 1 (4, 3)) a)) channels)
    as (f & Hf & _ & _ & Hbands & _).
  - vm_compute. reflexivity.
  - exists f. split; [exact Hf|]. rewrite Hbands. vm_compute. reflexivity.
Defined.

Lemma user_placeholders_parsed_once_witness :
  let a := example_app 1 (4, 3) "/tmp/my_saved_model/" false 2 in
  let a' := final (@ExecuteAndWriteOutput (example 1 (4, 3)) a) in
  length (@tile_computations (example 1 (4, 3)) a') = 4%nat
  ∧ ∀ tc, tc ∈ @tile_computations (example 1 (4, 3)) a' → tile_constants tc = example_dict.
Proof.
  intros a a'. split; [vm_compute; reflexivity|].
  destruct (@user_placeholders_parsed_once (example 1 (4, 3)) a a')
    as (dict & events & Hparse & _ & _ & Htiles & _).
  - vm_compute. reflexivity.
  - vm_compute in Hparse. injection Hparse as <-. exact Htiles.
Defined.

Lemma execution_mode_selected_once_witness :
  let settings :=
    example_settings "/tmp/my_saved_model/" false 2 ++ [("model.fullyconv", VBool true)] in
  let a' := final (@ExecuteAndWriteOutput (example 1 (4, 3))
                     (@configured (example 1 (4, 3)) settings)) in
  ∃ f, m_TFFilter a' = Some f ∧ execution_mode f = FullyConvolutional.
Proof.
  intros settings a'.
  destruct (@execution_mode_selected_once (example 1 (4, 3)) settings a' true)
    as (f & events & Hf & Hmode & _).
  - vm_compute. reflexivity.
  - vm_compute. reflexivity.
  - exists f. split; [exact Hf|exact Hmode].
Defined.

Lemma bundles_in_declaration_order_witness :
  let settings :=
    example_settings "/tmp/my_saved_model/" false 2
    ++ [("source2.il", VImageList ["s2.tif"]); ("source2.placeholder", VString "x2");
        ("source2.fovx", VInt 8); ("source2.fovy", VInt 4)] in
  let a := @configured (example 2 (4, 3)) settings in
  ∃ f, m_TFFilter (final (@DoExecute (example 2 (4, 3)) a)) = Some f
       ∧ f_Inputs f
         = [ {| in_placeholder := "x1"; in_patchsize := (16, 16);
                in_image := Stack ["spot6pms.tif"] |};
             {| in_placeholder := "x2"; in_patchsize := (8, 4);
                in_image := Stack ["s2.tif"] |} ].
Proof.
  intros settings a.
  destruct (@bundles_in_declaration_order (example 2 (4, 3)) settings
              (final (@DoExecute (example 2 (4, 3)) a)))
    as (f & events & Hf & Hinputs & _).
  - vm_compute. reflexivity.
  - exists f. split; [exact Hf|]. rewrite Hinputs. vm_compute. reflexivity.
Defined.

(** * Further properties of the application *)

(** ** The keys that [DoInit] declares *)

Lemma added_keys_app (l1 l2 : list Event) :
  added_keys (l1 ++ l2) = added_keys l1 ++ added_keys l2.
Proof. unfold added_keys. apply bind_app. Qed.

Lemma added_keys_loop (first k : nat) :
  added_keys (loop_events first k) = seq first k ≫= source_keys.
Proof.
  unfold loop_events. rewrite added_keys_app. cbn [added_keys mbind list_bind app].
  rewrite app_nil_r. revert first. induction k as [|k IH]; intros first; [done|].
  cbn [seq]. rewrite !bind_cons, added_keys_app, IH. reflexivity.
Qed.

Lemma source_keys_elem (i : nat) (key : string) :
  key ∈ source_keys i →
  ∃ s, key = source_key i s ∧ (s = "" ∨ starts_with_dot s = true).
Proof.
  unfold source_keys. rewrite group_key_source_key. intros Hkey. set_unfold in Hkey.
  destruct Hkey as [->|[->|[->|[->|[->|[]]]]]]; eexists; split; try reflexivity; auto.
Qed.

Lemma source_keys_NoDup (i : nat) : NoDup (source_keys i).
Proof.
  unfold source_keys. rewrite group_key_source_key.
  repeat (apply NoDup_cons; split;
          [set_unfold; intros H; repeat destruct H as [H|H]; try done;
           apply source_key_inj in H as [_ H]; auto; discriminate|]).
  apply NoDup_nil_2.
Qed.

Lemma sources_keys_NoDup (first k : nat) : NoDup (seq first k ≫= source_keys).
Proof.
  apply NoDup_bind.
  - intros i j key _ _ (s & -> & Hs)%source_keys_elem (s' & E & Hs')%source_keys_elem.
    by apply source_key_inj in E as [-> _].
  - intros i _. apply source_keys_NoDup.
  - apply NoDup_seq.
Qed.

Lemma static_keys_not_source (key : string) :
  key ∈ static_keys → ∀ r, key ≠ String "s" r.
Proof.
  unfold static_keys. intros Hkey r. set_unfold in Hkey.
  repeat destruct Hkey as [->|Hkey]; try done.
Qed.

Section Keys.
Context `{!Collaborators}.

Lemma declared_keys_NoDup : NoDup declared_keys.
Proof.
  unfold declared_keys. apply NoDup_app. split_and!.
  - apply sources_keys_NoDup.
  - intros key (i & Hkey & _)%list_elem_of_bind Hstatic.
    apply source_keys_elem in Hkey as (s & -> & _).
    destruct (source_key_head i s) as [r Hr].
    by apply (static_keys_not_source _ Hstatic r).
  - unfold static_keys. apply (bool_decide_unpack _). vm_compute. reflexivity.
Qed.

Lemma DoInit_added_keys : added_keys (trace (DoInit App_New)) = declared_keys.
Proof.
  rewrite DoInit_trace, !added_keys_app, added_keys_loop.
  unfold declared_keys, number_of_sources. cbn [seq]. rewrite bind_cons.
  by rewrite <- app_assoc.
Qed.

Lemma declared_parameters_dom (i : nat) (t : gmap string ParameterDecl) :
  dom (declared_parameters i t) = list_to_set (source_keys i) ∪ dom t.
Proof.
  unfold declared_parameters, source_keys.
  rewrite !dom_insert_L, !dom_alter_L, !dom_insert_L.
  cbn [list_to_set]. set_unfold. intros key. tauto.
Qed.

Lemma sources_table_dom (first k : nat) (t : gmap string ParameterDecl) :
  dom (sources_table first k t) = list_to_set (seq first k ≫= source_keys) ∪ dom t.
Proof.
  induction k as [|k IH].
  - cbn. set_unfold. intros key. tauto.
  - rewrite sources_table_snoc, declared_parameters_dom, IH.
    rewrite seq_S, bind_app, list_to_set_app_L. cbn [mbind list_bind].
    rewrite app_nil_r. set_unfold. intros key. tauto.
Qed.

Lemma DoInit_dom : dom (parameters (DoInit App_New)) = list_to_set declared_keys.
Proof.
  unfold DoInit.
  cbn [parameters AddParameter SetMinimumParameterIntValue SetDefaultParameterInt
       SetDefaultParameterFloat MandatoryOn MandatoryOff set_parameters log].
  rewrite DoInit_sources_table.
  repeat first [rewrite dom_insert_L | rewrite dom_alter_L].
  rewrite sources_table_dom, dom_empty_L.
  unfold declared_keys. rewrite list_to_set_app_L. unfold static_keys.
  cbn [list_to_set]. set_unfold. intros key. tauto.
Qed.

End Keys.

Lemma sources_keys_length (first k : nat) :
  length (seq first k ≫= source_keys) = (5 * k)%nat.
Proof.
  revert first. induction k as [|k IH]; intros first; [done|].
  cbn [seq]. rewrite bind_cons, length_app, IH. cbn [source_keys length]. lia.
Qed.

(** What [AddAnInputImage] writes in the table is mandatory. *)
Lemma declared_parameters_mandatory (i : nat) (t : gmap string ParameterDecl)
    (key : string) (p : ParameterDecl) :
  declared_parameters i t !! key = Some p →
  t !! key = Some p ∨ p_mandatory p = true.
Proof.
  unfold declared_parameters. intros Hp.
  repeat match type of Hp with
  | <[_ := _]> _ !! _ = _ =>
      apply lookup_insert_Some in Hp as [[<- <-]|[? Hp]]; [by right|]
  | alter _ _ _ !! _ = _ =>
      apply lookup_alter_Some in Hp as [(<- & q & Hq & ->)|[? Hp]];
        [rewrite lookup_insert_eq in Hq; injection Hq as <-; by right|]
  end.
  by left.
Qed.

Lemma sources_table_mandatory (first k : nat) (t : gmap string ParameterDecl)
    (key : string) (p : ParameterDecl) :
  sources_table first k t !! key = Some p →
  t !! key = Some p ∨ p_mandatory p = true.
Proof.
  induction k as [|k IH]; intros Hp; [by left|].
  rewrite sources_table_snoc in Hp.
  apply declared_parameters_mandatory in Hp as [Hp|Hp]; [by apply IH|by right].
Qed.

Ltac lookup_static :=
  repeat first
    [ rewrite lookup_insert_eq
    | rewrite lookup_alter_eq
    | rewrite lookup_insert_ne by discriminate
    | rewrite lookup_alter_ne by discriminate ].

Ltac not_optional :=
  unfold optional_keys; set_unfold;
  let E := fresh "E" in intros E; repeat destruct E as [E|E]; done.

Ltac DoInit_table :=
  unfold DoInit;
  cbn [parameters AddParameter SetMinimumParameterIntValue SetDefaultParameterInt
       SetDefaultParameterFloat MandatoryOn MandatoryOff set_parameters log];
  rewrite DoInit_sources_table.

Section Declared.
Context `{!Collaborators}.

Lemma DoInit_mandatory_inv (key : string) (p : ParameterDecl) :
  parameters (DoInit App_New) !! key = Some p →
  (p_mandatory p = true ∧ key ∉ optional_keys)
  ∨ (p_mandatory p = false ∧ key ∈ optional_keys).
Proof.
  DoInit_table. intros Hp.
  repeat match type of Hp with
  | <[_ := _]> _ !! _ = _ =>
      apply lookup_insert_Some in Hp as [[<- <-]|[? Hp]];
        [left; split; [reflexivity|not_optional]|]
  | alter _ _ _ !! _ = _ =>
      let q := fresh "q" in
      let Hq := fresh "Hq" in
      apply lookup_alter_Some in Hp as [(<- & q & Hq & ->)|[? Hp]];
        [revert Hq; lookup_static; intros [= <-];
         first [ left; split; [reflexivity|not_optional]
               | right; split; [reflexivity|unfold optional_keys; set_unfold; tauto] ]|]
  end.
  apply sources_table_mandatory in Hp as [Hp|Hp]; [by rewrite lookup_empty in Hp|].
  left. split; [done|]. not_optional.
Qed.

(** X3.  [DoInit] declares, in this order, the five keys of each source
    from 1 to the number of sources, then the thirteen keys of the model,
    the output, the fine tuning and the output image; no key is declared
    twice; the keys of the table are exactly the declared keys, so that the
    table has five entries for each source and thirteen more. *)
Theorem DoInit_declares_each_key_once :
  added_keys (trace (DoInit App_New)) = declared_keys
  ∧ NoDup (added_keys (trace (DoInit App_New)))
  ∧ dom (parameters (DoInit App_New)) = list_to_set declared_keys
  ∧ size (parameters (DoInit App_New)) = (5 * number_of_sources + 13)%nat.
Proof.
  split_and!.
  - apply DoInit_added_keys.
  - rewrite DoInit_added_keys. apply declared_keys_NoDup.
  - apply DoInit_dom.
  - rewrite <- size_dom, DoInit_dom, size_list_to_set by apply declared_keys_NoDup.
    unfold declared_keys. by rewrite length_app, sources_keys_length.
Qed.

(** X4.  After [DoInit], the parameters that are not mandatory are
    exactly the three on which [MandatoryOff] is called:
    [model.userplaceholders], [model.fullyconv] and
    [finetuning.disabletiling]; the four parameters on which [MandatoryOn]
    is called are mandatory. *)
Theorem DoInit_optional_parameters :
  let t := parameters (DoInit App_New) in
  (∀ key, key ∈ optional_keys → ∃ p, t !! key = Some p ∧ p_mandatory p = false)
  ∧ (∀ key p, t !! key = Some p → p_mandatory p = false → key ∈ optional_keys)
  ∧ (∀ key, key ∈ ["model.dir"; "output.names"; "output.foex"; "output.foey"] →
       ∃ p, t !! key = Some p ∧ p_mandatory p = true).
Proof.
  intros t. subst t. split_and!.
  - intros key Hkey. unfold optional_keys in Hkey. set_unfold in Hkey.
    destruct Hkey as [->|[->|[->|[]]]]; eexists; (split; [DoInit_table; by lookup_static|done]).
  - intros key p Hp Hm. apply DoInit_mandatory_inv in Hp as [[Hp _]|[_ Hkey]]; [|done].
    by rewrite Hp in Hm.
  - intros key Hkey. set_unfold in Hkey.
    destruct Hkey as [->|[->|[->|[->|[]]]]]; eexists;
      (split; [DoInit_table; by lookup_static|done]).
Qed.

(** X5.  Every key that the example of the documentation gives a value
    to is a parameter that [DoInit] declares, whatever the count of sources
    is: the keys of the first source exist even when the count is below 1. *)
Theorem documented_example_keys_declared (key : string) :
  key ∈ DocExampleParameterKeys →
  is_Some (parameters (DoInit App_New) !! key).
Proof.
  intros Hkv. apply elem_of_dom. rewrite DoInit_dom. apply elem_of_list_to_set.
  unfold declared_keys, number_of_sources. cbn [seq]. rewrite bind_cons.
  unfold DocExampleParameterKeys in Hkv.
  assert (key ∈ source_keys 1 ∨ key ∈ static_keys) as [Hk|Hk].
  { set_unfold in Hkv.
    repeat destruct Hkv as [->|Hkv]; try done;
      first [ left; vm_compute; set_unfold; tauto
            | right; unfold static_keys; set_unfold; tauto ]. }
  - set_unfold. tauto.
  - set_unfold. tauto.
Qed.

End Declared.

Lemma documented_example_keys_declared_witness :
  is_Some (parameters (@DoInit (example 1 (1000, 1000)) App_New) !! "source1.fovx").
Proof.
  apply (@documented_example_keys_declared (example 1 (1000, 1000)) "source1.fovx").
  apply (bool_decide_unpack _). vm_compute. reflexivity.
Defined.

Lemma DoInit_optional_parameters_witness :
  ∃ p, parameters (@DoInit (example 1 (1000, 1000)) App_New) !! "model.fullyconv" = Some p
       ∧ p_mandatory p = false.
Proof.
  apply (proj1 (@DoInit_optional_parameters (example 1 (1000, 1000)))).
  apply (bool_decide_unpack _). vm_compute. reflexivity.
Defined.

(** ** One more source *)

Lemma declared_parameters_untouched (i : nat) (t : gmap string ParameterDecl) (key : string) :
  key ∉ source_keys i → declared_parameters i t !! key = t !! key.
Proof.
  unfold source_keys. rewrite !not_elem_of_cons.
  intros (H1 & H2 & H3 & H4 & H5 & _). unfold declared_parameters.
  by rewrite !lookup_insert_ne, !lookup_alter_ne, !lookup_insert_ne,
             !lookup_alter_ne, !lookup_insert_ne by done.
Qed.

(** X1.  On an application that has [n] bundles, whatever its table
    holds, [AddAnInputImage] appends one bundle, that of the source number
    [n + 1]; it declares the five keys of that source, in the order group,
    [.il], [.fovx], [.fovy], [.placeholder]; the table gains these keys and
    no other, every entry under another key is left as it was; and the four
    keys stored in the new bundle are keys of the table. *)
Theorem AddAnInputImage_declares_next_source (a : App) :
  let i := S (length (m_Bundles a)) in
  let a' := AddAnInputImage a in
  m_Bundles a' = m_Bundles a ++ [declared_bundle i]
  ∧ added_keys (trace a') = added_keys (trace a) ++ source_keys i
  ∧ dom (parameters a') = list_to_set (source_keys i) ∪ dom (parameters a)
  ∧ (∀ key, key ∉ source_keys i → parameters a' !! key = parameters a !! key)
  ∧ (∀ key, key ∈ bundle_keys (declared_bundle i) → is_Some (parameters a' !! key)).
Proof.
  intros i a'. subst i a'. split_and!.
  - apply AddAnInputImage_bundles.
  - by rewrite AddAnInputImage_trace, added_keys_app.
  - rewrite AddAnInputImage_parameters. apply declared_parameters_dom.
  - intros key Hkey. rewrite AddAnInputImage_parameters.
    by apply declared_parameters_untouched.
  - intros key Hkey. apply elem_of_dom.
    rewrite AddAnInputImage_parameters, declared_parameters_dom.
    apply elem_of_union. left. apply elem_of_list_to_set.
    unfold bundle_keys, declared_bundle in Hkey. cbn in Hkey.
    unfold source_keys. set_unfold in Hkey. set_unfold. tauto.
Qed.

Lemma AddAnInputImage_declares_next_source_witness :
  parameters (AddAnInputImage (AddAnInputImage App_New)) !! "source1.fovx"
  = parameters (AddAnInputImage App_New) !! "source1.fovx".
Proof.
  apply (AddAnInputImage_declares_next_source (AddAnInputImage App_New)).
  apply (bool_decide_unpack _). vm_compute. reflexivity.
Defined.

(** ** The loop over the sources *)

Section Loop.
Context `{!Collaborators}.

(** X2.  The loop [for (int i = 1; i < tf::GetNumberOfSources(); i++)
    AddAnInputImage();], entered at [i] and given more tests than it needs,
    ends: it runs [AddAnInputImage] as many times as [i] is below the count
    (not at all when the count is not above [i], a count of zero or a
    negative count included), appends the bundles of that many sources, tests
    the count once more than it iterates, and reaches the state that [DoInit]
    is stated with. *)
Theorem source_loop_terminates (fuel : nat) (i : Z) (a : App) :
  let k := Z.to_nat (tf_GetNumberOfSources - i) in
  (k < fuel)%nat →
  ∃ a',
    for_sources fuel i a = Some a'
    ∧ a' = add_sources k a
    ∧ m_Bundles a'
      = m_Bundles a ++ (declared_bundle <$> seq (S (length (m_Bundles a))) k)
    ∧ length (m_Bundles a') = (length (m_Bundles a) + k)%nat
    ∧ trace a' = trace a ++ loop_events (S (length (m_Bundles a))) k
    ∧ count is_GetNumberOfSources (loop_events (S (length (m_Bundles a))) k) = S k.
Proof.
  intros k Hfuel. exists (add_sources k a). split_and!.
  - by apply for_sources_add_sources.
  - reflexivity.
  - apply add_sources_bundles.
  - by rewrite add_sources_bundles, length_app, length_fmap, length_seq.
  - apply add_sources_trace.
  - apply loop_events_count.
Qed.

End Loop.

Lemma source_loop_terminates_witness :
  ∃ a', @for_sources (example 3 (4, 3)) 3 1 (AddAnInputImage App_New) = Some a'
        ∧ length (m_Bundles a') = 3%nat.
Proof.
  destruct (@source_loop_terminates (example 3 (4, 3)) 3 1 (AddAnInputImage App_New))
    as (a' & Hrun & _ & _ & Hlen & _).
  - cbn. lia.
  - exists a'. split; [exact Hrun|exact Hlen].
Defined.

(** ** The outcomes of [DoExecute], one by one *)

Section Ends.
Context `{!Collaborators}.

(** The filter that a malformed expression leaves behind. *)
Lemma DoExecute_parse_fails_filter (a : App) (model : SavedModelBundle) :
  let t := parameters a in
  tf_LoadModel (ParameterAsString "model.dir" t) = Some model →
  parse_all (ParameterStringList "model.userplaceholders" t) = None →
  ∃ done e rest,
    ParameterStringList "model.userplaceholders" t = done ++ e :: rest
    ∧ is_Some (parse_all done)
    ∧ tf_ExpressionToTensor e = None
    ∧ DoExecute a
      = Thrown (ExpressionError e)
          (interrupted a model (loaded_filter t model)
             (load_events t ++ setup_events (m_Bundles a) ++ parse_events (done ++ [e]))).
Proof.
  intros t' Hload Hparse. subst t'. destruct a as [t o f s m b tr].
  fields in Hload; fields in Hparse.
  unfold DoExecute, LoadModel; run; fields; rewrite Hload; run;
    rewrite PrepareInputs_run; run; fields.
  match goal with
  | |- context [parse_expressions ?l ?d ?st] =>
      destruct (parse_expressions_throws l d st Hparse)
        as (done & e & rest & Hl & Hdone & He & Hrun)
  end.
  exists done, e, rest. split_and!; [done..|].
  rewrite Hrun. unfold interrupted, load_events, setup_events, loaded_filter.
  states. fields. do 2 f_equal.
  repeat (progress (rewrite <- ?app_assoc; cbn [app])); reflexivity.
Qed.

Lemma DoExecute_outcome (a : App) : execution_outcome a (DoExecute a).
Proof.
  destruct (tf_LoadModel (ParameterAsString "model.dir" (parameters a)))
    as [model|] eqn:Hload.
  2: { rewrite DoExecute_load_fails by done. by constructor. }
  destruct (parse_all (ParameterStringList "model.userplaceholders" (parameters a)))
    as [dict|] eqn:Hparse.
  2: { destruct (DoExecute_parse_fails_filter a model Hload Hparse)
         as (done & e & rest & Hl & Hdone & He & ->).
       by apply (outcome_parse_fails a model done e rest). }
  destruct (decide (ParameterInt "finetuning.disabletiling" (parameters a) = 1))
    as [Htiling|Htiling].
  { rewrite (DoExecute_untiled a model dict) by done.
    apply outcome_returns; [done..|]. by constructor. }
  destruct (tf_OutputSize (configured_filter (parameters a) (m_Bundles a) model dict))
    as [size|] eqn:Hsize.
  2: { rewrite (DoExecute_output_information_fails a model dict) by done.
       by apply outcome_output_information_fails. }
  destruct (nbDesiredTiles (GetNumberOfPixels size)
              (to_uint (ParameterInt "finetuning.tilesize" (parameters a))))
    as [nb|] eqn:Hnb.
  2: { rewrite (DoExecute_conversion_undefined a model dict size) by done.
       by apply (outcome_conversion_undefined a model dict size). }
  rewrite (DoExecute_tiled a model dict size nb) by done.
  apply outcome_returns; [done..|]. by econstructor.
Qed.

End Ends.

Section Exceptions.
Context `{!Collaborators}.


End Exceptions.


(** ** Malformed user placeholders *)

Lemma parse_all_is_Some `{!Collaborators} (expressions : list string) :
  is_Some (parse_all expressions) →
  Forall (fun exp => is_Some (tf_ExpressionToTensor exp)) expressions.
Proof.
  induction expressions as [|e rest IH]; intros Hp; [constructor|].
  simpl in Hp. destruct (tf_ExpressionToTensor e) as [entry|] eqn:He.
  - constructor; [by rewrite He|]. apply IH.
    destruct (parse_all rest); [done|]. by destruct Hp.
  - by destruct Hp.
Qed.

Section Malformed.
Context `{!Collaborators}.

(** X9.  When the model loads and an expression of
    [model.userplaceholders] is malformed, [DoExecute] ends with the
    exception of the first malformed expression: the expressions before it
    have been parsed, in their order, those after it are not parsed, the
    dictionary is not installed on the filter and no input is pushed. *)
Theorem first_malformed_expression_reported (a : App) (model : SavedModelBundle) :
  tf_LoadModel (ParameterAsString "model.dir" (parameters a)) = Some model →
  parse_all (ParameterStringList "model.userplaceholders" (parameters a)) = None →
  ∃ done e rest a' events,
    ParameterStringList "model.userplaceholders" (parameters a) = done ++ e :: rest
    ∧ Forall (fun exp => is_Some (tf_ExpressionToTensor exp)) done
    ∧ tf_ExpressionToTensor e = None
    ∧ DoExecute a = Thrown (ExpressionError e) a'
    ∧ trace a' = trace a ++ events
    ∧ select is_ExpressionToTensor events = EvExpressionToTensor <$> (done ++ [e])
    ∧ count is_SetUserPlaceholders events = 0%nat
    ∧ count is_PushBackInputBundle events = 0%nat.
Proof.
  intros Hload Hparse.
  destruct (DoExecute_parse_fails a model Hload Hparse)
    as (done & e & rest & f & Hl & Hdone & He & Hrun).
  exists done, e, rest. eexists _, _. split_and!.
  - exact Hl.
  - by apply parse_all_is_Some.
  - exact He.
  - exact Hrun.
  - reflexivity.
  - rewrite !select_app.
    rewrite (select_none _ (load_events _)) by (intros e' He'; events_cases He').
    rewrite (select_none _ (setup_events _)) by (intros e' He'; events_cases He').
    rewrite select_all; [done|]. by intros e' (exp & -> & _)%list_elem_of_fmap.
  - apply count_none. intros e' He'. events_cases He'.
  - apply count_none. intros e' He'. events_cases He'.
Qed.

End Malformed.

Lemma first_malformed_expression_reported_witness :
  let settings :=
    example_settings "/tmp/my_saved_model/" false 2
    ++ [("model.userplaceholders", VStringList ["is_training=false"; "dropout"; "batch"])] in
  let a := @configured (example 1 (4, 3)) settings in
  ∃ done e rest a',
    ParameterStringList "model.userplaceholders" (parameters a) = done ++ e :: rest
    ∧ parse_placeholder e = None
    ∧ @DoExecute (example 1 (4, 3)) a = Thrown (ExpressionError e) a'.
Proof.
  intros settings a.
  destruct (@first_malformed_expression_reported (example 1 (4, 3)) a example_model)
    as (done & e & rest & a' & events & Hl & Hdone & He & Hrun & _).
  - vm_compute. reflexivity.
  - vm_compute. reflexivity.
  - exists done, e, rest, a'. split_and!; [exact Hl|exact He|exact Hrun].
Defined.

(** ** A second execution *)

Lemma prepared_bundle_idempotent (t : gmap string ParameterDecl)
    (bundle : ProcessObjectsBundle) :
  prepared_bundle t (prepared_bundle t bundle) = prepared_bundle t bundle.
Proof. reflexivity. Qed.

Lemma prepared_bundles_idempotent (t : gmap string ParameterDecl)
    (bundles : list ProcessObjectsBundle) :
  prepared_bundle t <$> (prepared_bundle t <$> bundles) = prepared_bundle t <$> bundles.
Proof. rewrite <- list_fmap_compose. by apply list_fmap_ext. Qed.

Lemma prepare_events_prepared (t : gmap string ParameterDecl)
    (bundles : list ProcessObjectsBundle) :
  (prepared_bundle t <$> bundles) ≫= prepare_events = bundles ≫= prepare_events.
Proof.
  induction bundles as [|b bundles IH]; [done|].
  rewrite fmap_cons, !bind_cons, IH. reflexivity.
Qed.

Lemma configured_filter_prepared (t : gmap string ParameterDecl)
    (bundles : list ProcessObjectsBundle) (model : SavedModelBundle) (dict : DictListType) :
  configured_filter t (prepared_bundle t <$> bundles) model dict
  = configured_filter t bundles model dict.
Proof. unfold configured_filter. by rewrite prepared_bundles_idempotent. Qed.

Lemma execute_events_prepared (t : gmap string ParameterDecl)
    (bundles : list ProcessObjectsBundle) (tail : list Event) :
  execute_events t (prepared_bundle t <$> bundles) tail = execute_events t bundles tail.
Proof.
  unfold execute_events, setup_events, wiring_events.
  by rewrite prepare_events_prepared, prepared_bundles_idempotent.
Qed.

Section Again.
Context `{!Collaborators}.

(** X10.  [DoExecute] can be run again.  After a [DoExecute] that
    returns, a second [DoExecute] returns too, makes the same calls and
    leaves the same inference filter, streaming filter, model, bundles,
    registered outputs and parameters: the filter is created anew, so that
    it has one input for each bundle and not two. *)
Theorem DoExecute_repeatable (a a1 : App) :
  DoExecute a = Returned tt a1 →
  ∃ a2 events,
    DoExecute a1 = Returned tt a2
    ∧ trace a1 = trace a ++ events
    ∧ trace a2 = trace a1 ++ events
    ∧ m_TFFilter a2 = m_TFFilter a1
    ∧ m_StreamFilter a2 = m_StreamFilter a1
    ∧ m_SavedModel a2 = m_SavedModel a1
    ∧ m_Bundles a2 = m_Bundles a1
    ∧ output_images a2 = output_images a1
    ∧ parameters a2 = parameters a1
    ∧ (∀ f, m_TFFilter a2 = Some f → length (f_Inputs f) = length (m_Bundles a)).
Proof.
  intros (model & dict & stream & out & tail & Hload & Hparse & Hchoice & ->)
    %DoExecute_returns_inv.
  set (a1 := executed a model dict stream out tail).
  assert (streaming_choice a1 model dict stream out tail) as Hchoice1.
  { destruct Hchoice as [Htiling|size nb tileSize Htiling Hsize Hnb].
    - by apply (choice_untiled a1).
    - apply (choice_tiled a1 model dict size nb); [done| |done].
      cbn [a1 executed parameters m_Bundles]. by rewrite configured_filter_prepared. }
  exists (executed a1 model dict stream out tail),
         (execute_events (parameters a) (m_Bundles a) tail).
  split; [by apply DoExecute_returns|].
  unfold a1, executed. cbn [parameters output_images m_TFFilter m_StreamFilter
    m_SavedModel m_Bundles trace].
  split_and!.
  - reflexivity.
  - by rewrite execute_events_prepared.
  - by rewrite configured_filter_prepared.
  - reflexivity.
  - reflexivity.
  - by rewrite prepared_bundles_idempotent.
  - by rewrite insert_insert_eq.
  - reflexivity.
  - intros f [= <-]. unfold configured_filter. cbn [f_Inputs].
    by rewrite !length_fmap.
Qed.

End Again.

Lemma DoExecute_repeatable_witness :
  let a := example_app 1 (4, 3) "/tmp/my_saved_model/" false 2 in
  let a1 := final (@DoExecute (example 1 (4, 3)) a) in
  ∃ a2, @DoExecute (example 1 (4, 3)) a1 = Returned tt a2
        ∧ m_TFFilter a2 = m_TFFilter a1.
Proof.
  intros a a1.
  destruct (@DoExecute_repeatable (example 1 (4, 3)) a a1)
    as (a2 & events & Hrun & _ & _ & Hfilter & _).
  - vm_compute. reflexivity.
  - exists a2. split; [exact Hrun|exact Hfilter].
Defined.

(** ** [PrepareInputs] *)


Section Prepare.
Context `{!Collaborators}.


End Prepare.

(** ** The values of the parameters the user leaves unset *)

Lemma configure_parameter_value (settings : list (string * Value)) (key : string) (a : App) :
  key ∉ settings.*1 →
  parameter_value key (parameters (configure settings a)) = parameter_value key (parameters a).
Proof.
  revert a. induction settings as [|[k v] settings IH]; intros a Hkey; [done|].
  rewrite fmap_cons, not_elem_of_cons in Hkey. destruct Hkey as [Hne Hkey].
  cbn [configure fold_left]. rewrite (IH _ Hkey).
  cbn [SetParameterValue set_parameters parameters]. by apply parameter_value_other.
Qed.

Lemma configure_lookup (settings : list (string * Value)) (key : string) (a : App)
    (p : ParameterDecl) :
  parameters a !! key = Some p →
  ∃ p', parameters (configure settings a) !! key = Some p'
        ∧ p_type p' = p_type p ∧ p_mandatory p' = p_mandatory p
        ∧ p_minimum p' = p_minimum p ∧ p_default p' = p_default p.
Proof.
  revert a p. induction settings as [|[k v] settings IH]; intros a p Hp; [by exists p|].
  cbn [configure fold_left].
  destruct (decide (k = key)) as [->|Hne].
  - destruct (IH (SetParameterValue key v a) (with_value v p)) as (p' & Hp' & Heq).
    { cbn [SetParameterValue set_parameters parameters]. by rewrite lookup_alter_eq, Hp. }
    by exists p'.
  - apply IH. cbn [SetParameterValue set_parameters parameters].
    by rewrite lookup_alter_ne.
Qed.

Lemma configure_dom (settings : list (string * Value)) (a : App) :
  dom (parameters (configure settings a)) = dom (parameters a).
Proof.
  revert a. induction settings as [|[k v] settings IH]; intros a; [done|].
  cbn [configure fold_left]. rewrite IH.
  cbn [SetParameterValue set_parameters parameters]. apply dom_alter_L.
Qed.

Section Defaults.
Context `{!Collaborators}.

Lemma DoInit_values :
  let t := parameters (DoInit App_New) in
  parameter_value "finetuning.tilesize" t = VInt 16
  ∧ parameter_value "finetuning.disabletiling" t = VBool false
  ∧ parameter_value "model.fullyconv" t = VBool false
  ∧ parameter_value "output.foex" t = VInt 1
  ∧ parameter_value "output.foey" t = VInt 1
  ∧ parameter_value "output.spcscale" t = VFloat float_one
  ∧ parameter_value "model.userplaceholders" t = VEmpty.
Proof.
  intros t. subst t. unfold parameter_value.
  split_and!; DoInit_table; by lookup_static.
Qed.

(** X11.  On an application declared by [DoInit], when the user gives no
    value to the parameters of the fine tuning, of the execution mode, of the
    output field of expression, of the output spacing scale and of the user
    placeholders, a [DoExecute] that returns has configured the filter in the
    patch-wise mode, with an output field of expression of 1 by 1, an output
    spacing scale of 1.0 and no user placeholder, and it streams the output:
    the image registered under ["out"] is the output of a streaming filter
    whose splitter has a tile size alignment of 16. *)
Theorem unset_parameters_take_defaults (settings : list (string * Value)) (a' : App) :
  let a := configured settings in
  (∀ key, key ∈ ["finetuning.tilesize"; "finetuning.disabletiling"; "model.fullyconv";
                 "output.foex"; "output.foey"; "output.spcscale";
                 "model.userplaceholders"] → key ∉ settings.*1) →
  DoExecute a = Returned tt a' →
  ∃ f nb,
    m_TFFilter a' = Some f
    ∧ execution_mode f = PatchWise
    ∧ f_OutputFOESize f = (1, 1)
    ∧ f_OutputSpacingScale f = float_one
    ∧ f_UserPlaceholders f = []
    ∧ m_StreamFilter a' = Some (tiling_filter 16 nb)
    ∧ output_images a' !! "out" = Some StreamFilter_Output.
Proof.
  intros a Hunset
    (model & dict & stream & out & tail & Hload & Hparse & Hchoice & ->)%DoExecute_returns_inv.
  destruct DoInit_values as (Htile & Htiling & Hfc & Hfoex & Hfoey & Hscale & Huser).
  assert (∀ key v, parameter_value key (parameters (DoInit App_New)) = v →
            key ∈ ["finetuning.tilesize"; "finetuning.disabletiling"; "model.fullyconv";
                   "output.foex"; "output.foey"; "output.spcscale";
                   "model.userplaceholders"] →
            parameter_value key (parameters a) = v) as Hvalue.
  { intros key v <- Hkey. unfold a, configured.
    apply configure_parameter_value. by apply Hunset. }
  apply Hvalue in Htile, Htiling, Hfc, Hfoex, Hfoey, Hscale, Huser;
    try (apply (bool_decide_unpack _); vm_compute; reflexivity).
  assert (dict = []) as ->.
  { unfold ParameterStringList in Hparse. rewrite Huser in Hparse.
    cbn in Hparse. by injection Hparse as <-. }
  destruct Hchoice as [Hdisabled|size nb tileSize Hdisabled Hsize Hnb].
  { unfold ParameterInt in Hdisabled. by rewrite Htiling in Hdisabled. }
  assert (tileSize = 16) as Htile16.
  { unfold tileSize, ParameterInt. rewrite Htile. reflexivity. }
  eexists _, nb. split; [reflexivity|].
  unfold executed, configured_filter, execution_mode.
  cbn [f_FullyConvolutional f_OutputFOESize f_OutputSpacingScale f_UserPlaceholders
       m_StreamFilter output_images].
  unfold ParameterInt, ParameterFloat. rewrite Hfc, Hfoex, Hfoey, Hscale.
  split_and!; try reflexivity.
  - by rewrite Htile16.
  - by rewrite lookup_insert_eq.
Qed.

End Defaults.

Lemma unset_parameters_take_defaults_witness :
  let settings :=
    [("source1.il", VImageList ["spot6pms.tif"]); ("source1.placeholder", VString "x1");
     ("source1.fovx", VInt 16); ("source1.fovy", VInt 16);
     ("model.dir", VString "/tmp/my_saved_model/");
     ("output.names", VStringList ["out_predict1"; "out_proba1"])] in
  let a' := final (@DoExecute (example 1 (1000, 1000))
                     (@configured (example 1 (1000, 1000)) settings)) in
  ∃ nb, m_StreamFilter a' = Some (tiling_filter 16 nb).
Proof.
  intros settings a'.
  destruct (@unset_parameters_take_defaults (example 1 (1000, 1000)) settings a')
    as (f & nb & _ & _ & _ & _ & _ & Hstream & _).
  - intros key Hkey. apply list_elem_of_In in Hkey. cbn [In] in Hkey.
    repeat destruct Hkey as [<-|Hkey]; try done;
      apply (bool_decide_unpack _); vm_compute; reflexivity.
  - vm_compute. reflexivity.
  - by exists nb.
Defined.

(** ** The streaming filter of a tiled execution *)

Section Tiling.
Context `{!Collaborators}.


End Tiling.


(** ** The parameters an execution reads *)

Lemma prepare_events_reads (bundle : ProcessObjectsBundle) (key : string) :
  EvGetParameter key ∈ prepare_events bundle → key ∈ bundle_keys bundle.
Proof.
  unfold prepare_events, bundle_keys. intros Hk. set_unfold in Hk. set_unfold.
  destruct Hk as [[= ->]|[[= ->]|[[= ->]|[[= ->]|[]]]]]; tauto.
Qed.

(** The reads among the calls of an execution, whatever calls [tail] end
    it. *)
Lemma execute_events_reads (t : gmap string ParameterDecl)
    (bundles : list ProcessObjectsBundle) (expressions : list string)
    (tail : list Event) (key : string) :
  EvGetParameter key ∈ load_events t ++ setup_events bundles
                       ++ parse_events expressions ++ wiring_events t bundles ++ tail →
  key ∈ execute_keys
  ∨ (∃ bundle, bundle ∈ bundles ∧ key ∈ bundle_keys bundle)
  ∨ EvGetParameter key ∈ tail.
Proof.
  rewrite !elem_of_app. unfold load_events, setup_events, parse_events, wiring_events.
  rewrite !elem_of_cons, !elem_of_app, !elem_of_cons, list_elem_of_bind, !list_elem_of_fmap.
  intros Hk.
  repeat match goal with
         | H : _ ∨ _ |- _ => destruct H as [H|H]
         | H : ∃ _, _ |- _ => destruct H as [? H]
         | H : _ ∧ _ |- _ => destruct H as [? H]
         end;
  try discriminate;
  try (match goal with H : EvGetParameter _ = EvGetParameter _ |- _ => injection H as -> end;
       left; apply (bool_decide_unpack _); vm_compute; reflexivity).
  - by apply elem_of_nil in Hk.
  - right; left. eexists. split; [eassumption|]. by apply prepare_events_reads.
  - by apply elem_of_nil in Hk.
  - apply elem_of_app in Hk as [Hk|Hk].
    + destruct (ParameterInt "model.fullyconv" t =? 1); set_unfold in Hk;
        repeat destruct Hk as [Hk|Hk]; done.
    + set_unfold in Hk.
      repeat destruct Hk as [Hk|Hk]; try done;
        injection Hk as ->; left; apply (bool_decide_unpack _); vm_compute; reflexivity.
  - by right; right.
Qed.

Lemma tail_reads (tail : list Event) (key : string) :
  tail = untiled_events ∨ tail = tiled_events
  ∨ tail = [EvGetParameter "finetuning.tilesize"; EvUpdateOutputInformation]
  ∨ tail = [EvGetParameter "finetuning.tilesize"; EvUpdateOutputInformation; EvSplitterNew] →
  EvGetParameter key ∈ tail → key = "finetuning.tilesize".
Proof.
  unfold untiled_events, tiled_events.
  intros [-> | [-> | [-> | ->]]] Hk; set_unfold in Hk;
    repeat destruct Hk as [Hk|Hk]; try done; by injection Hk.
Qed.

Section Reads.
Context `{!Collaborators}.

Lemma DoExecute_reads (a : App) (key : string) :
  EvGetParameter key ∈ trace (final (DoExecute a)) →
  EvGetParameter key ∈ trace a
  ∨ key ∈ execute_keys
  ∨ ∃ bundle, bundle ∈ m_Bundles a ∧ key ∈ bundle_keys bundle.
Proof.
  assert (∀ expressions tail,
            (EvGetParameter key ∈ tail → key = "finetuning.tilesize") →
            EvGetParameter key ∈ load_events (parameters a) ++ setup_events (m_Bundles a)
              ++ parse_events expressions ++ wiring_events (parameters a) (m_Bundles a)
              ++ tail →
            key ∈ execute_keys
            ∨ ∃ bundle, bundle ∈ m_Bundles a ∧ key ∈ bundle_keys bundle) as Hreads.
  { intros expressions tail Htail [Hk|[Hk|Hk]]%execute_events_reads; [by left|by right|].
    left. rewrite (Htail Hk). apply (bool_decide_unpack _). vm_compute. reflexivity. }
  pose proof (DoExecute_outcome a) as Ho.
  inversion Ho as [Hload Heq|model done e' rest Hload Hl Hdone He Heq
                   |model dict Hload Hparse Htiling Hsize Heq
                   |model dict size Hload Hparse Htiling Hsize Hnb Heq
                   |model dict stream out tail Hload Hparse Hchoice Heq];
    cbn [final interrupted executed logs trace];
    intros [Hk|Hk]%elem_of_app; try (by left); right.
  - apply (Hreads [] []); [by intros ?%elem_of_nil|].
    apply elem_of_app. by left.
  - apply (Hreads (done ++ [e']) []); [by intros ?%elem_of_nil|].
    change (EvGetParameter key ∈ load_events (parameters a) ++ setup_events (m_Bundles a)
                                 ++ parse_events (done ++ [e'])) in Hk.
    rewrite !elem_of_app in Hk. rewrite !elem_of_app. tauto.
  - apply (Hreads (ParameterStringList "model.userplaceholders" (parameters a))
             [EvGetParameter "finetuning.tilesize"; EvUpdateOutputInformation]);
      [apply tail_reads; tauto|exact Hk].
  - apply (Hreads (ParameterStringList "model.userplaceholders" (parameters a))
             [EvGetParameter "finetuning.tilesize"; EvUpdateOutputInformation;
              EvSplitterNew]);
      [apply tail_reads; tauto|exact Hk].
  - apply (Hreads (ParameterStringList "model.userplaceholders" (parameters a)) tail);
      [|exact Hk].
    apply tail_reads. apply streaming_choice_tail in Hchoice. tauto.
Qed.

Lemma DoExecute_registers (a : App) (key : string) :
  EvSetParameterOutputImage key ∈ trace (final (DoExecute a)) →
  EvSetParameterOutputImage key ∈ trace a ∨ key = "out".
Proof.
  pose proof (DoExecute_outcome a) as Ho.
  inversion Ho as [Hload Heq|model done e' rest Hload Hl Hdone He Heq
                   |model dict Hload Hparse Htiling Hsize Heq
                   |model dict size Hload Hparse Htiling Hsize Hnb Heq
                   |model dict stream out tail Hload Hparse Hchoice Heq];
    cbn [final interrupted executed logs trace];
    intros [Hk|Hk]%elem_of_app; try (by left); right.
  - events_cases Hk.
  - events_cases Hk.
  - events_cases Hk.
  - events_cases Hk.
  - apply streaming_choice_tail in Hchoice as [-> | ->]; events_cases Hk;
      by match goal with E : EvSetParameterOutputImage _ = _ |- _ => injection E end.
Qed.

Lemma DoInit_trace_kinds (e : Event) :
  e ∈ trace (DoInit App_New) → e = EvGetNumberOfSources ∨ ∃ key, e = EvAddParameter key.
Proof.
  rewrite DoInit_trace. unfold loop_events, static_events, declared_events.
  intros He. set_unfold in He.
  repeat match goal with
         | H : _ ∨ _ |- _ => destruct H as [H|H]
         | H : ∃ _, _ |- _ => destruct H as [? H]
         | H : _ ∧ _ |- _ => destruct H as [? H]
         | H : ?x = _ |- _ => is_var x; subst x
         end; try done; eauto.
Qed.

Lemma declared_bundle_keys (i : nat) (key : string) :
  (1 ≤ i ≤ number_of_sources)%nat → key ∈ bundle_keys (declared_bundle i) →
  key ∈ declared_keys.
Proof.
  intros Hi Hkey. unfold declared_keys. apply elem_of_app. left.
  apply list_elem_of_bind. exists i. split; [|apply elem_of_seq; lia].
  unfold bundle_keys, declared_bundle in Hkey. cbn in Hkey.
  unfold source_keys. set_unfold in Hkey. set_unfold. tauto.
Qed.

Lemma execute_keys_declared (key : string) : key ∈ execute_keys → key ∈ declared_keys.
Proof.
  intros Hkey. unfold declared_keys. apply elem_of_app. right.
  unfold execute_keys in Hkey. apply list_elem_of_In in Hkey. cbn [In] in Hkey.
  repeat destruct Hkey as [<-|Hkey]; try done;
    apply (bool_decide_unpack _); vm_compute; reflexivity.
Qed.

(** X7.  On an application declared by [DoInit] and given any values by
    the user, every parameter that is read, whatever the outcome of
    [DoExecute], is a parameter of the table; and the only key under which
    an output image is registered is a parameter of the table whose type is
    that of an output image. *)
Theorem execution_uses_declared_parameters (settings : list (string * Value)) :
  let a := configured settings in
  (∀ key, EvGetParameter key ∈ trace (final (DoExecute a)) →
     is_Some (parameters a !! key))
  ∧ (∀ key, EvSetParameterOutputImage key ∈ trace (final (DoExecute a)) →
       ∃ p, parameters a !! key = Some p ∧ p_type p = ParameterType_OutputImage).
Proof.
  intros a.
  assert (∀ e, e ∈ trace a → e = EvGetNumberOfSources ∨ ∃ key, e = EvAddParameter key)
    as Hinit.
  { intros e. unfold a. rewrite configured_trace. apply DoInit_trace_kinds. }
  split.
  - intros key Hk. apply elem_of_dom. unfold a, configured.
    rewrite configure_dom, DoInit_dom. apply elem_of_list_to_set.
    apply DoExecute_reads in Hk as [Hk|[Hk|(bundle & Hb & Hk)]].
    + by apply Hinit in Hk as [?|[? ?]].
    + by apply execute_keys_declared.
    + unfold a in Hb. rewrite configured_bundles in Hb.
      apply list_elem_of_fmap in Hb as (i & -> & Hi%elem_of_seq).
      apply (declared_bundle_keys i); [lia|done].
  - intros key Hk. apply DoExecute_registers in Hk as [Hk| ->].
    + by apply Hinit in Hk as [?|[? ?]].
    + destruct (configure_lookup settings "out" (DoInit App_New)
                  (new_parameter ParameterType_OutputImage "output image"))
        as (p & Hp & Htype & _).
      { DoInit_table. by lookup_static. }
      exists p. by split.
Qed.

End Reads.

Lemma execution_uses_declared_parameters_witness :
  let a := example_app 1 (4, 3) "/tmp/my_saved_model/" false 2 in
  is_Some (parameters a !! "source1.fovx").
Proof.
  intros a.
  apply (proj1 (@execution_uses_declared_parameters (example 1 (4, 3))
                  (example_settings "/tmp/my_saved_model/" false 2))).
  apply (bool_decide_unpack _). vm_compute. reflexivity.
Defined.

(** ** The number of stream divisions, in general *)


(** A quotient by zero is not a number an [unsigned int] can hold. *)
Lemma double_div_zero (x : spec_float) :
  double_div x (S754_zero false) = S754_nan
  ∨ ∃ s, double_div x (S754_zero false) = S754_infinity s.
Proof. destruct x as [s|s| |s m e]; cbn; eauto. Qed.



(** X14.  For a tile size that is a multiple of 65536, zero included,
    the product [tileSize * tileSize] of [unsigned int] is zero: the quotient
    is an infinity or not a number, whatever the number of pixels, and its
    conversion to [unsigned int] is not defined. *)
Theorem stream_divisions_undefined (N t : Z) :
  (65536 | t) →
  uint_mul t t = 0
  ∧ (let q := double_div (double_of_Z N) (double_of_Z (uint_mul t t)) in
     q = S754_nan ∨ ∃ s, q = S754_infinity s)
  ∧ nbDesiredTiles N t = None.
Proof.
  intros [k ->].
  assert (uint_mul (k * 65536) (k * 65536) = 0) as Hz.
  { unfold uint_mul, to_uint, UINT_MODULUS, UINT_WIDTH.
    replace (k * 65536 * (k * 65536)) with (k * k * 2 ^ 32)
      by (change (2 ^ 32) with (65536 * 65536); ring).
    apply Z.mod_mul. lia. }
  split; [done|]. unfold nbDesiredTiles. rewrite Hz.
  change (double_of_Z 0) with (S754_zero false).
  destruct (double_div_zero (double_of_Z N)) as [Hq|[s Hq]]; rewrite Hq.
  - split; [by left|done].
  - split; [right; by exists s|done].
Qed.

Lemma stream_divisions_undefined_witness :
  nbDesiredTiles 1000000 131072 = None.
Proof.
  destruct (stream_divisions_undefined 1000000 131072) as (_ & _ & Hnb).
  - exists 2. reflexivity.
  - exact Hnb.
Defined.

(** ** The model the filter runs *)

Section Model.
Context `{!Collaborators}.


End Model.

